(** * buildah mount: the command layer of cmd/buildah/mount.go

    A shallow embedding of [mountCmd] and of the [jsonMount] record it
    fills.  The command talks to the container store, to the builders it
    opens and to the two output streams; all of that is made explicit:
    the collaborators are the fields of an environment [Env], their
    effects are transitions of an abstract [World], and every call and
    every write is logged, in program order, in a trace of [Event]s. *)

From Stdlib Require Import String Ascii List ZArith Bool Arith Lia.
Import ListNotations.
Open Scope string_scope.

(** ** Go values *)

(** A Go [error] value that is not nil.  [Errorf] is an error made from a
    message (errors.Errorf, or any error of a collaborator); [Wrapf] is
    errors.Wrapf: a cause with a message in front of it. *)
Inductive error : Type :=
| Errorf (msg : string)
| Wrapf (cause : error) (msg : string).

(** The text of an error, its [Error()] method. *)
Fixpoint Error (e : error) : string :=
  match e with
  | Errorf msg => msg
  | Wrapf cause msg => msg ++ ": " ++ Error cause
  end.

(** A Go slice: [None] is the nil slice, which is not the same value as an
    empty slice that was allocated. *)
Definition slice (A : Type) : Type := option (list A).

Definition elems {A : Type} (s : slice A) : list A :=
  match s with
  | None => []
  | Some l => l
  end.

(** The builtin [append] with one element: the result is never nil. *)
Definition append {A : Type} (s : slice A) (x : A) : slice A :=
  Some (elems s ++ [x])%list.

(** The line feed that ends every printed line. *)
Definition nl : string := String (ascii_of_nat 10) EmptyString.

(** The double quote of JSON. *)
Definition dq : string := String (ascii_of_nat 34) EmptyString.

(** ** The record of mount.go *)

(** [type jsonMount struct]: the zero value of a field is the empty
    string. *)
Record jsonMount : Type := {
  Container : string;
  MountPoint : string
}.

(** The struct tags: the members that encoding/json writes for one
    [jsonMount].  [container] carries omitempty and is left out when the
    field is empty, [mountPoint] is always written. *)
Definition members (m : jsonMount) : list (string * string) :=
  ((if String.eqb (Container m) "" then [] else [("container", Container m)])
   ++ [("mountPoint", MountPoint m)])%list.

Definition has_member (key : string) (m : jsonMount) : bool :=
  existsb (fun kv => String.eqb (fst kv) key) (members m).

(** ** encoding/json on a slice of [jsonMount]

    What [json.MarshalIndent v "" "    "] writes, given the encoding [enc]
    of a JSON string: a nil slice is the token null, an empty one the empty
    array, and the elements are one object each, a member per line. *)
Module GoJSON.

Definition indent1 : string := "    ".
Definition indent2 : string := "        ".

Definition member (enc : string -> string) (kv : string * string) : string :=
  indent2 ++ dq ++ fst kv ++ dq ++ ": " ++ enc (snd kv).

Definition object (enc : string -> string) (m : jsonMount) : string :=
  indent1 ++ "{" ++ nl
  ++ String.concat ("," ++ nl) (map (member enc) (members m)) ++ nl
  ++ indent1 ++ "}".

Definition MarshalIndent (enc : string -> string) (v : slice jsonMount) : string :=
  match v with
  | None => "null"
  | Some [] => "[]"
  | Some l => "[" ++ nl ++ String.concat ("," ++ nl) (map (object enc) l) ++ nl ++ "]"
  end.

End GoJSON.

(** A text between double quotes: what the %q verb and the JSON encoder
    write for a text that has no character to escape. *)
Definition quoted (s : string) : string := dq ++ s ++ dq.

(** ** The collaborators

    Everything [mountCmd] calls that is not in mount.go: the argument
    check of pkg/cli, the store and the builders, the privilege probe, and
    the two library functions whose result depends on the text they are
    given (the %q verb and the JSON encoder).  A call that can touch the
    storage takes the world and gives the next one back. *)
Record Env : Type := {
  World : Type;
  Store : Type;
  Builder : Type;
  (* the fields of a builder that the command reads *)
  BContainer : Builder -> string;
  BMountLabel : Builder -> string;
  BMountPoint : Builder -> string;
  (* buildahcli.VerifyFlagsArgsOrder *)
  VerifyFlagsArgsOrder : list string -> option error;
  (* getStore(c) *)
  getStore : World -> (Store + error) * World;
  (* store.GraphDriverName() *)
  GraphDriverName : Store -> string;
  (* os.Geteuid() *)
  Geteuid : World -> Z;
  (* openBuilder(getContext(), store, name) *)
  openBuilder : Store -> string -> World -> (Builder + error) * World;
  (* openBuilders(store) *)
  openBuilders : Store -> World -> (list Builder + error) * World;
  (* builder.Mount(label) *)
  Mount : Builder -> string -> World -> (string + error) * World;
  (* builder.Mounted() *)
  Mounted : Builder -> World -> (bool + error) * World;
  (* the %q verb of fmt *)
  Quote : string -> string;
  (* json.MarshalIndent(jsonMounts, "", "    ") *)
  MarshalIndent : slice jsonMount -> string + error
}.

(** What the command does that can be seen from outside, in order. *)
Inductive Event (E : Env) : Type :=
| CallOpenBuilder (name : string)
| CallMount (b : Builder E) (label : string)
| CallOpenBuilders
| CallMounted (b : Builder E)
| Stdout (text : string)
| Stderr (text : string).

Arguments CallOpenBuilder {E} name.
Arguments CallMount {E} b label.
Arguments CallOpenBuilders {E}.
Arguments CallMounted {E} b.
Arguments Stdout {E} text.
Arguments Stderr {E} text.

(** ** The monad of the command: a world and a trace *)

Definition M (E : Env) (A : Type) : Type :=
  World E -> list (Event E) * World E * A.

Definition ret {E : Env} {A : Type} (a : A) : M E A :=
  fun w => ([], w, a).

Definition bind {E : Env} {A B : Type} (m : M E A) (f : A -> M E B) : M E B :=
  fun w =>
    let '(t1, w1, a) := m w in
    let '(t2, w2, b) := f a w1 in
    ((t1 ++ t2)%list, w2, b).

Notation "x <- m ;; k" := (bind m (fun x => k))
  (at level 61, m at next level, right associativity).
Notation "m ;;; k" := (bind m (fun _ => k))
  (at level 61, right associativity).

(** Log an event. *)
Definition emit {E : Env} (e : Event E) : M E unit :=
  fun w => ([e], w, tt).

(** Log a call and let the collaborator run. *)
Definition call {E : Env} {A : Type} (e : Event E)
  (f : World E -> A * World E) : M E A :=
  fun w => let '(a, w') := f w in ([e], w', a).

(** A collaborator that leaves no event of its own. *)
Definition quiet {E : Env} {A : Type} (f : World E -> A * World E) : M E A :=
  fun w => let '(a, w') := f w in ([], w', a).

Definition trace_of {E : Env} {A : Type} (r : list (Event E) * World E * A) :
  list (Event E) := fst (fst r).
Definition world_of {E : Env} {A : Type} (r : list (Event E) * World E * A) :
  World E := snd (fst r).
Definition value_of {E : Env} {A : Type} (r : list (Event E) * World E * A) :
  A := snd r.

(** ** mountCmd *)

Section Command.

Variable E : Env.

(** [fmt.Fprintln(os.Stderr, lastError)] *)
Definition Fprintln_stderr (e : error) : M E unit :=
  emit (Stderr (Error e ++ nl)).

(** [fmt.Printf] with the three formats of the command. *)
Definition Printf_id_path (id path : string) : M E unit :=
  emit (Stdout (id ++ " " ++ path ++ nl)).

Definition Printf_line (s : string) : M E unit :=
  emit (Stdout (s ++ nl)).

(** The error of the rootless guard (line 77). *)
Definition rootlessError (driver : string) : error :=
  Errorf ("cannot mount using driver " ++ driver
          ++ " in rootless mode. You need to run it in a `buildah unshare` session").

(** The two local variables that live across the loops. *)
Record Locals : Type := {
  jsonMounts : slice jsonMount;
  lastError : option error
}.

(** [var jsonMounts []jsonMount; var lastError error] *)
Definition locals0 : Locals := {| jsonMounts := None; lastError := None |}.

(** The lines 83 to 85 and 91 to 93: print the failure that is about to be
    replaced. *)
Definition printPending (l : Locals) : M E unit :=
  match lastError l with
  | Some e => Fprintln_stderr e
  | None => ret tt
  end.

(** One turn of the loop over the arguments (lines 81 to 109); [n] is
    [len(args)].  Every [continue] ends the turn. *)
Definition mountOne (store : Store E) (n : nat) (outputJSON : bool)
  (name : string) (l : Locals) : M E Locals :=
  r <- call (CallOpenBuilder name) (openBuilder E store name) ;;
  match r with
  | inr err =>
      printPending l ;;;
      ret {| jsonMounts := jsonMounts l;
             lastError := Some (Wrapf err ("error reading build container "
                                           ++ Quote E name)) |}
  | inl builder =>
      r' <- call (CallMount builder (BMountLabel E builder))
                 (Mount E builder (BMountLabel E builder)) ;;
      match r' with
      | inr err =>
          printPending l ;;;
          ret {| jsonMounts := jsonMounts l;
                 lastError := Some (Wrapf err ("error mounting " ++ Quote E name
                                               ++ " container "
                                               ++ Quote E (BContainer E builder))) |}
      | inl mountPoint =>
          if (1 <? n)%nat then
            if outputJSON then
              ret {| jsonMounts := append (jsonMounts l)
                                     {| Container := name; MountPoint := mountPoint |};
                     lastError := lastError l |}
            else
              Printf_id_path name mountPoint ;;; ret l
          else
            if outputJSON then
              ret {| jsonMounts := append (jsonMounts l)
                                     {| Container := ""; MountPoint := mountPoint |};
                     lastError := lastError l |}
            else
              Printf_line mountPoint ;;; ret l
      end
  end.

(** [for _, name := range args] (lines 80 to 110). *)
Fixpoint mountTargets (store : Store E) (n : nat) (outputJSON : bool)
  (args : list string) (l : Locals) : M E Locals :=
  match args with
  | [] => ret l
  | name :: rest =>
      l' <- mountOne store n outputJSON name l ;;
      mountTargets store n outputJSON rest l'
  end.

(** [for _, builder := range builders] (lines 117 to 129): the first query
    that fails ends the command with its error. *)
Fixpoint listMounted (outputJSON : bool) (builders : list (Builder E))
  (l : Locals) : M E (Locals + error) :=
  match builders with
  | [] => ret (inl l)
  | builder :: rest =>
      r <- call (CallMounted builder) (Mounted E builder) ;;
      match r with
      | inr err => ret (inr err)
      | inl mounted =>
          if mounted then
            if outputJSON then
              listMounted outputJSON rest
                {| jsonMounts := append (jsonMounts l)
                                   {| Container := BContainer E builder;
                                      MountPoint := BMountPoint E builder |};
                   lastError := lastError l |}
            else
              Printf_id_path (BContainer E builder) (BMountPoint E builder) ;;;
              listMounted outputJSON rest l
          else
            listMounted outputJSON rest l
      end
  end.

(** The end of the command (lines 132 to 140). *)
Definition finish (outputJSON : bool) (l : Locals) : M E (option error) :=
  if outputJSON then
    match MarshalIndent E (jsonMounts l) with
    | inr err => ret (Some err)
    | inl data => Printf_line data ;;; ret (lastError l)
    end
  else
    ret (lastError l).

(** The test of line 76. *)
Definition rootless (store : Store E) (w : World E) : bool :=
  negb (Z.eqb (Geteuid E w) 0%Z) && negb (String.eqb (GraphDriverName E store) "vfs").

(** The branch of the explicit targets (lines 72 to 110, then the end). *)
Definition mountArgs (store : Store E) (args : list string) (outputJSON : bool) :
  M E (option error) :=
  fun w =>
    if rootless store w then
      ret (Some (rootlessError (GraphDriverName E store))) w
    else
      (l <- mountTargets store (length args) outputJSON args locals0 ;;
       finish outputJSON l) w.

(** The branch without arguments (lines 112 to 129, then the end). *)
Definition mountAll (store : Store E) (outputJSON : bool) : M E (option error) :=
  r <- call CallOpenBuilders (openBuilders E store) ;;
  match r with
  | inr err => ret (Some (Wrapf err "error reading build containers"))
  | inl builders =>
      r' <- listMounted outputJSON builders locals0 ;;
      match r' with
      | inr err => ret (Some err)
      | inl l => finish outputJSON l
      end
  end.

(** [func mountCmd(c *cobra.Command, args []string, outputJSON bool) error] *)
Definition mountCmd (args : list string) (outputJSON : bool) : M E (option error) :=
  match VerifyFlagsArgsOrder E args with
  | Some err => ret (Some err)
  | None =>
      r <- quiet (getStore E) ;;
      match r with
      | inr err => ret (Some err)
      | inl store =>
          if (0 <? length args)%nat then mountArgs store args outputJSON
          else mountAll store outputJSON
      end
  end.

End Command.

(** The events a pending failure gives rise to when it is replaced. *)
Definition pendingLine {E : Env} (l : Locals) : list (Event E) :=
  match lastError l with
  | Some e => [Stderr (Error e ++ nl)]
  | None => []
  end.

(** The two failures of the loop, as lines 86 and 94 wrap them. *)
Definition readFailure (E : Env) (name : string) (err : error) : error :=
  Wrapf err ("error reading build container " ++ Quote E name).

Definition mountFailure (E : Env) (name : string) (b : Builder E) (err : error) :
  error :=
  Wrapf err ("error mounting " ++ Quote E name ++ " container "
             ++ Quote E (BContainer E b)).

(** The failure, if any, that each argument of the loop runs into, in the
    order of the arguments: the collaborators are asked as the loop asks
    them, one world after the other. *)
Fixpoint failures (E : Env) (store : Store E) (args : list string)
  (w : World E) : list error :=
  match args with
  | [] => []
  | name :: rest =>
      match openBuilder E store name w with
      | (inr err, w1) => readFailure E name err :: failures E store rest w1
      | (inl builder, w1) =>
          match Mount E builder (BMountLabel E builder) w1 with
          | (inr err, w2) =>
              mountFailure E name builder err :: failures E store rest w2
          | (inl _, w2) => failures E store rest w2
          end
      end
  end.

(** The line on standard error for a failure. *)
Definition diagnostic (e : error) : string := Error e ++ nl.

(** The record that [n] arguments in JSON mode store for the argument
    [name] mounted at [path], and the line they print in text mode. *)
Definition resultOf (n : nat) (name path : string) : jsonMount :=
  if (1 <? n)%nat then {| Container := name; MountPoint := path |}
  else {| Container := ""; MountPoint := path |}.

Definition lineOf (n : nat) (name path : string) : string :=
  if (1 <? n)%nat then name ++ " " ++ path ++ nl else path ++ nl.

(** The same two for a builder of the listing branch. *)
Definition resultOfBuilder (E : Env) (b : Builder E) : jsonMount :=
  {| Container := BContainer E b; MountPoint := BMountPoint E b |}.

Definition lineOfBuilder (E : Env) (b : Builder E) : string :=
  BContainer E b ++ " " ++ BMountPoint E b ++ nl.

(** The arguments that get mounted, each with the path the builder gave
    for it, in the order of the arguments. *)
Fixpoint successes (E : Env) (store : Store E) (args : list string)
  (w : World E) : list (string * string) :=
  match args with
  | [] => []
  | name :: rest =>
      match openBuilder E store name w with
      | (inr _, w1) => successes E store rest w1
      | (inl builder, w1) =>
          match Mount E builder (BMountLabel E builder) w1 with
          | (inr _, w2) => successes E store rest w2
          | (inl path, w2) => (name, path) :: successes E store rest w2
          end
      end
  end.

(** The builders of the listing branch that answer that they are mounted,
    up to the first query that fails, in the order of the enumeration. *)
Fixpoint mountedBuilders (E : Env) (builders : list (Builder E))
  (w : World E) : list (Builder E) :=
  match builders with
  | [] => []
  | b :: rest =>
      match Mounted E b w with
      | (inr _, _) => []
      | (inl true, w1) => b :: mountedBuilders E rest w1
      | (inl false, w1) => mountedBuilders E rest w1
      end
  end.

(** The member [container] is written for this record. *)
Definition has_container (m : jsonMount) : bool := has_member "container" m.

(** Every name has a text, and so has the container of every builder that
    the store enumerates. *)
Definition Named (E : Env) (args : list string) (store : Store E)
  (w0 : World E) : Prop :=
  Forall (fun name => name <> "") args
  /\ forall builders w1,
       openBuilders E store w0 = (inl builders, w1) ->
       Forall (fun b => BContainer E b <> "") builders.

(** How the slice of the results can change: not at all, or by [append],
    which leaves a slice that has a last element. *)
Definition grown (s s' : slice jsonMount) : Prop :=
  s' = s \/ exists ms m, s' = Some (ms ++ [m])%list.

(** A pending failure as a list of at most one failure. *)
Definition pending (o : option error) : list error :=
  match o with
  | Some e => [e]
  | None => []
  end.

(** ** Projections of a trace *)

Definition is_stdout {E : Env} (e : Event E) : bool :=
  match e with Stdout _ => true | _ => false end.

(** A resolution or a mount: what the rootless guard is there to prevent. *)
Definition is_attempt {E : Env} (e : Event E) : bool :=
  match e with
  | CallOpenBuilder _ | CallMount _ _ => true
  | _ => false
  end.

(** The texts written to standard output, in order. *)
Fixpoint stdout_of {E : Env} (t : list (Event E)) : list string :=
  match t with
  | [] => []
  | Stdout s :: t' => s :: stdout_of t'
  | _ :: t' => stdout_of t'
  end.

(** The texts written to standard error, in order. *)
Fixpoint stderr_of {E : Env} (t : list (Event E)) : list string :=
  match t with
  | [] => []
  | Stderr s :: t' => s :: stderr_of t'
  | _ :: t' => stderr_of t'
  end.

(** The builders that were asked whether they are mounted, in order. *)
Fixpoint queried {E : Env} (t : list (Event E)) : list (Builder E) :=
  match t with
  | [] => []
  | CallMounted b :: t' => b :: queried t'
  | _ :: t' => queried t'
  end.

(** The trace without what goes to standard output. *)
Definition silent {E : Env} (t : list (Event E)) : list (Event E) :=
  filter (fun e => negb (is_stdout e)) t.

(** The two writes of a trace, told apart by the stream. *)
Inductive Write : Type :=
| Out (text : string)
| Err (text : string).

Fixpoint writes {E : Env} (t : list (Event E)) : list Write :=
  match t with
  | [] => []
  | Stdout s :: t' => Out s :: writes t'
  | Stderr s :: t' => Err s :: writes t'
  | _ :: t' => writes t'
  end.




(** The names that were handed to the store for resolution, in order. *)
Fixpoint opened {E : Env} (t : list (Event E)) : list string :=
  match t with
  | [] => []
  | CallOpenBuilder name :: t' => name :: opened t'
  | _ :: t' => opened t'
  end.


(** An enumeration or a query: the calls of the listing branch. *)
Definition is_listing {E : Env} (e : Event E) : bool :=
  match e with
  | CallOpenBuilders | CallMounted _ => true
  | _ => false
  end.

(** An encoder that gives a document for every slice. *)
Definition EncoderTotal (E : Env) : Prop :=
  forall v, exists data, MarshalIndent E v = inl data.

(** ** A small store to run the command on

    Three containers can be named: A is unknown to the store, B mounts, C
    resolves but does not mount; [alias] is a second name of the container
    [real].  The world is the list of the containers the store enumerates,
    and a mount changes it. *)

Inductive Health : Type := Unmounted | IsMounted | QueryFails | MountFails.

Record TestBuilder : Type := {
  tb_container : string;
  tb_label : string;
  tb_mountPoint : string;
  tb_health : Health
}.

Definition tb (name : string) (h : Health) : TestBuilder :=
  {| tb_container := name; tb_label := "";
     tb_mountPoint := match h with IsMounted => "/mnt/" ++ name | _ => "" end;
     tb_health := h |}.

Definition test_openBuilder (name : string) : TestBuilder + error :=
  if String.eqb name "B" then inl (tb "B" Unmounted)
  else if String.eqb name "C" then inl (tb "C" MountFails)
  else if String.eqb name "D" then inl (tb "D" Unmounted)
  else if String.eqb name "alias" then inl (tb "real" Unmounted)
  else inr (Errorf "container not known").

Definition test_Mount (b : TestBuilder) : string + error :=
  match tb_health b with
  | MountFails => inr (Errorf "mount failed")
  | _ => inl ("/mnt/" ++ tb_container b)
  end.

(** What a mount does to the store: the container of the builder is
    mounted from then on. *)
Definition test_mark (b : TestBuilder) (w : list TestBuilder) : list TestBuilder :=
  match tb_health b with
  | MountFails => w
  | _ =>
      map (fun x => if String.eqb (tb_container x) (tb_container b)
                    then tb (tb_container x) IsMounted else x) w
  end.

Definition test_Mounted (b : TestBuilder) : bool + error :=
  match tb_health b with
  | IsMounted => inl true
  | QueryFails => inr (Errorf "query failed")
  | _ => inl false
  end.

Definition testEnv (euid : Z) (driver : string)
  (marshal : slice jsonMount -> string + error) : Env :=
  {| World := list TestBuilder;
     Store := string;
     Builder := TestBuilder;
     BContainer := tb_container;
     BMountLabel := tb_label;
     BMountPoint := tb_mountPoint;
     VerifyFlagsArgsOrder := fun _ => None;
     getStore := fun w => (inl driver, w);
     GraphDriverName := fun s => s;
     Geteuid := fun _ => euid;
     openBuilder := fun _ name w => (test_openBuilder name, w);
     openBuilders := fun _ w => (inl w, w);
     Mount := fun b _ w => (test_Mount b, test_mark b w);
     Mounted := fun b w => (test_Mounted b, w);
     Quote := quoted;
     MarshalIndent := marshal |}.

(** The encoder of the Go library, on texts that need no escape. *)
Definition goMarshal (v : slice jsonMount) : string + error :=
  inl (GoJSON.MarshalIndent quoted v).


(** Root with the overlay driver, and an unprivileged user with it. *)
Definition rootEnv : Env := testEnv 0 "overlay" goMarshal.
Definition userEnv : Env := testEnv 1000 "overlay" goMarshal.

(** An unprivileged user with the vfs driver. *)
Definition vfsEnv : Env := testEnv 1000 "vfs" goMarshal.

(** The environment has the encoder of the Go library, with [enc] for the
    texts. *)
Definition GoEncoder (E : Env) (enc : string -> string) : Prop :=
  forall v, MarshalIndent E v = inl (GoJSON.MarshalIndent enc v).

(** The checks before the branch pass: the arguments are in order, the
    store opens as [store] in the world [w1], and the rootless guard does
    not apply. *)
Definition Cleared (E : Env) (args : list string) (w : World E)
  (store : Store E) (w1 : World E) : Prop :=
  VerifyFlagsArgsOrder E args = None
  /\ getStore E w = (inl store, w1)
  /\ rootless E store w1 = false.

(** The command gets to its last lines (132 to 140) with the locals [l], in
    the world [w'] and after the trace [t]: nothing has cut it short.  The
    store opened as [store] in the world [w0]; with targets the rootless
    guard lets them through and the loop runs, without targets the store
    enumerates its builders and every query answers. *)
Definition Reaches (E : Env) (args : list string) (outputJSON : bool)
  (w : World E) (store : Store E) (w0 : World E)
  (t : list (Event E)) (w' : World E) (l : Locals) : Prop :=
  VerifyFlagsArgsOrder E args = None
  /\ getStore E w = (inl store, w0)
  /\ match args with
     | _ :: _ =>
         rootless E store w0 = false
         /\ mountTargets E store (length args) outputJSON args locals0 w0 = (t, w', l)
     | [] =>
         exists builders w1 t',
           openBuilders E store w0 = (inl builders, w1)
           /\ listMounted E outputJSON builders locals0 w1 = (t', w', inl l)
           /\ t = CallOpenBuilders :: t'
     end.

(** The results can be written: text mode, or an encoder that does not
    fail on them. *)
Definition Encodes (E : Env) (outputJSON : bool) (l : Locals) : Prop :=
  outputJSON = false \/ exists data, MarshalIndent E (jsonMounts l) = inl data.

(** * Properties *)

(** ** The monad and the checks before the branch *)

Lemma run_bind (E : Env) (A B : Type) (m : M E A) (f : A -> M E B)
  (w w1 w2 : World E) (t1 t2 : list (Event E)) (a : A) (b : B) :
  m w = (t1, w1, a) ->
  f a w1 = (t2, w2, b) ->
  bind m f w = ((t1 ++ t2)%list, w2, b).
Proof.
  intros Hm Hf. unfold bind. rewrite Hm, Hf. reflexivity.
Qed.

Lemma trace_of_triple (E : Env) (A : Type) (t : list (Event E)) (w : World E) (a : A) :
  trace_of (t, w, a) = t.
Proof. reflexivity. Qed.

Lemma world_of_triple (E : Env) (A : Type) (t : list (Event E)) (w : World E) (a : A) :
  world_of (t, w, a) = w.
Proof. reflexivity. Qed.

Lemma value_of_triple (E : Env) (A : Type) (t : list (Event E)) (w : World E) (a : A) :
  value_of (t, w, a) = a.
Proof. reflexivity. Qed.

Lemma run_triple (E : Env) (A : Type) (r : list (Event E) * World E * A) :
  r = (trace_of r, world_of r, value_of r).
Proof. destruct r as [[t w] a]. reflexivity. Qed.

(** Past the argument check and the opening of the store the command is
    one of its two branches, run in the world the store left. *)
Lemma mountCmd_branch (E : Env) (args : list string) (outputJSON : bool)
  (w : World E) (store : Store E) (w1 : World E) :
  VerifyFlagsArgsOrder E args = None ->
  getStore E w = (inl store, w1) ->
  mountCmd E args outputJSON w =
  (if (0 <? length args)%nat then mountArgs E store args outputJSON
   else mountAll E store outputJSON) w1.
Proof.
  intros Hv Hs. unfold mountCmd. rewrite Hv.
  unfold bind, quiet. rewrite Hs.
  destruct ((if (0 <? length args)%nat then mountArgs E store args outputJSON
             else mountAll E store outputJSON) w1) as [[t w2] r].
  reflexivity.
Qed.

(** A failed argument check is the result of the command. *)
Lemma mountCmd_bad_args (E : Env) (args : list string) (outputJSON : bool)
  (w : World E) (err : error) :
  VerifyFlagsArgsOrder E args = Some err ->
  mountCmd E args outputJSON w = ([], w, Some err).
Proof.
  intros Hv. unfold mountCmd. rewrite Hv. reflexivity.
Qed.

(** So is a store that does not open. *)
Lemma mountCmd_no_store (E : Env) (args : list string) (outputJSON : bool)
  (w w1 : World E) (err : error) :
  VerifyFlagsArgsOrder E args = None ->
  getStore E w = (inr err, w1) ->
  mountCmd E args outputJSON w = ([], w1, Some err).
Proof.
  intros Hv Hs. unfold mountCmd. rewrite Hv.
  unfold bind, quiet. rewrite Hs. reflexivity.
Qed.

Lemma rootless_true (E : Env) (store : Store E) (w : World E) :
  Geteuid E w <> 0%Z ->
  GraphDriverName E store <> "vfs" ->
  rootless E store w = true.
Proof.
  intros Hu Hd. unfold rootless.
  apply Z.eqb_neq in Hu. apply String.eqb_neq in Hd.
  rewrite Hu, Hd. reflexivity.
Qed.


(** ** The rootless guard *)

(** C1: with at least one target, an effective user that is not root and a
    graph driver other than vfs, the command returns the error that names
    the driver and its trace is empty: nothing was resolved, nothing was
    mounted.  Without a target the same user with the same driver gets
    the listing branch: the guard is not consulted and the store is
    enumerated. *)
Theorem rootless_guard (E : Env) (args : list string) (outputJSON : bool)
  (w : World E) (store : Store E) (w1 : World E) :
  VerifyFlagsArgsOrder E args = None ->
  getStore E w = (inl store, w1) ->
  Geteuid E w1 <> 0%Z ->
  GraphDriverName E store <> "vfs" ->
  match args with
  | _ :: _ =>
      mountCmd E args outputJSON w
      = ([], w1, Some (rootlessError (GraphDriverName E store)))
      /\ filter is_attempt (trace_of (mountCmd E args outputJSON w)) = []
      /\ Error (rootlessError (GraphDriverName E store))
         = "cannot mount using driver " ++ GraphDriverName E store
           ++ " in rootless mode. You need to run it in a `buildah unshare` session"
  | [] =>
      mountCmd E args outputJSON w = mountAll E store outputJSON w1
      /\ exists t, trace_of (mountCmd E args outputJSON w) = CallOpenBuilders :: t
  end.
Proof.
  intros Hv Hs Hu Hd. destruct args as [|name rest].
  - rewrite (mountCmd_branch E [] outputJSON w store w1 Hv Hs). simpl.
    split; [reflexivity|].
    unfold mountAll, bind, call.
    destruct (openBuilders E store w1) as [[builders|err] w2].
    + destruct (listMounted E outputJSON builders locals0 w2) as [[t w3] [l|err]].
      * destruct (finish E outputJSON l w3) as [[t' w4] r]. eexists. reflexivity.
      * eexists. reflexivity.
    + eexists. reflexivity.
  - assert (Hrun : mountCmd E (name :: rest) outputJSON w
                   = ([], w1, Some (rootlessError (GraphDriverName E store)))).
    { rewrite (mountCmd_branch E (name :: rest) outputJSON w store w1 Hv Hs).
      simpl. unfold mountArgs.
      rewrite (rootless_true E store w1 Hu Hd). reflexivity. }
    rewrite Hrun. repeat split; reflexivity.
Qed.

(** The guard at work: an unprivileged user and the overlay driver, with
    one target and with none. *)
Lemma rootless_guard_witness :
  (mountCmd userEnv ["B"] false []
   = ([], [], Some (rootlessError "overlay"))
   /\ filter is_attempt (trace_of (mountCmd userEnv ["B"] false [])) = []
   /\ Error (rootlessError "overlay")
      = "cannot mount using driver " ++ "overlay"
        ++ " in rootless mode. You need to run it in a `buildah unshare` session")
  /\ (mountCmd userEnv [] true [tb "B" IsMounted]
      = mountAll userEnv "overlay" true [tb "B" IsMounted]
      /\ exists t, trace_of (mountCmd userEnv [] true [tb "B" IsMounted])
                   = CallOpenBuilders :: t).
Proof.
  split.
  - apply (rootless_guard userEnv ["B"] false [] "overlay" []).
    + reflexivity.
    + reflexivity.
    + simpl. lia.
    + simpl. intros H. discriminate H.
  - apply (rootless_guard userEnv [] true [tb "B" IsMounted] "overlay"
             [tb "B" IsMounted]).
    + reflexivity.
    + reflexivity.
    + simpl. lia.
    + simpl. intros H. discriminate H.
Defined.

(** ** One turn of the loop over the arguments *)

(** The argument does not resolve. *)
Lemma mountOne_unresolved (E : Env) (store : Store E) (n : nat) (outputJSON : bool)
  (name : string) (l : Locals) (w w1 : World E) (err : error) :
  openBuilder E store name w = (inr err, w1) ->
  mountOne E store n outputJSON name l w
  = (CallOpenBuilder name :: pendingLine l, w1,
     {| jsonMounts := jsonMounts l;
        lastError := Some (readFailure E name err) |}).
Proof.
  intros Ho. unfold mountOne, bind, call. rewrite Ho.
  unfold printPending, pendingLine.
  destruct (lastError l) as [e|]; reflexivity.
Qed.

(** The argument resolves and the mount fails. *)
Lemma mountOne_unmounted (E : Env) (store : Store E) (n : nat) (outputJSON : bool)
  (name : string) (l : Locals) (w w1 w2 : World E) (b : Builder E) (err : error) :
  openBuilder E store name w = (inl b, w1) ->
  Mount E b (BMountLabel E b) w1 = (inr err, w2) ->
  mountOne E store n outputJSON name l w
  = (CallOpenBuilder name :: CallMount b (BMountLabel E b) :: pendingLine l, w2,
     {| jsonMounts := jsonMounts l;
        lastError := Some (mountFailure E name b err) |}).
Proof.
  intros Ho Hm. unfold mountOne, bind, call. rewrite Ho, Hm.
  unfold printPending, pendingLine.
  destruct (lastError l) as [e|]; reflexivity.
Qed.

(** The argument is mounted: a line in text mode, a record in JSON mode. *)
Lemma mountOne_mounted (E : Env) (store : Store E) (n : nat) (outputJSON : bool)
  (name : string) (l : Locals) (w w1 w2 : World E) (b : Builder E) (path : string) :
  openBuilder E store name w = (inl b, w1) ->
  Mount E b (BMountLabel E b) w1 = (inl path, w2) ->
  mountOne E store n outputJSON name l w
  = if outputJSON then
      ([CallOpenBuilder name; CallMount b (BMountLabel E b)], w2,
       {| jsonMounts := append (jsonMounts l) (resultOf n name path);
          lastError := lastError l |})
    else
      ([CallOpenBuilder name; CallMount b (BMountLabel E b);
        Stdout (lineOf n name path)], w2, l).
Proof.
  intros Ho Hm. unfold mountOne, bind, call, resultOf, lineOf. rewrite Ho, Hm.
  destruct (1 <? n)%nat, outputJSON; reflexivity.
Qed.

(** A turn either leaves the pending failure alone and writes nothing to
    standard error, or it replaces it: then the results are untouched,
    nothing goes to standard output, and what goes to standard error is
    the failure that was pending, if there was one, as the last event. *)
Lemma mountOne_policy (E : Env) (store : Store E) (n : nat) (outputJSON : bool)
  (name : string) (l : Locals) (w : World E) :
  let r := mountOne E store n outputJSON name l w in
  (lastError (value_of r) = lastError l /\ stderr_of (trace_of r) = [])
  \/ (exists (calls : list (Event E)) (f : error),
        trace_of r = (calls ++ pendingLine l)%list
        /\ writes calls = []
        /\ lastError (value_of r) = Some f
        /\ jsonMounts (value_of r) = jsonMounts l
        /\ ((exists err, f = readFailure E name err)
            \/ (exists b err, f = mountFailure E name b err))).
Proof.
  intros r. subst r.
  destruct (openBuilder E store name w) as [[b|err] w1] eqn:Ho.
  - destruct (Mount E b (BMountLabel E b) w1) as [[path|err] w2] eqn:Hm.
    + left. rewrite (mountOne_mounted E store n outputJSON name l w w1 w2 b path Ho Hm).
      destruct outputJSON; split; reflexivity.
    + right. rewrite (mountOne_unmounted E store n outputJSON name l w w1 w2 b err Ho Hm).
      exists [CallOpenBuilder name; CallMount b (BMountLabel E b)], (mountFailure E name b err).
      repeat split; try reflexivity. right. exists b, err. reflexivity.
  - right. rewrite (mountOne_unresolved E store n outputJSON name l w w1 err Ho).
    exists [CallOpenBuilder name], (readFailure E name err).
    repeat split; try reflexivity. left. exists err. reflexivity.
Qed.

(** ** The end of the command and the branch of the arguments *)

Lemma finish_text (E : Env) (l : Locals) (w : World E) :
  finish E false l w = ([], w, lastError l).
Proof. reflexivity. Qed.

Lemma finish_json (E : Env) (l : Locals) (w : World E) (data : string) :
  MarshalIndent E (jsonMounts l) = inl data ->
  finish E true l w = ([Stdout (data ++ nl)], w, lastError l).
Proof.
  intros Hd. unfold finish. rewrite Hd. reflexivity.
Qed.


(** The end never touches the world nor standard error. *)
Lemma finish_quiet (E : Env) (outputJSON : bool) (l : Locals) (w : World E) :
  world_of (finish E outputJSON l w) = w
  /\ stderr_of (trace_of (finish E outputJSON l w)) = []
  /\ silent (trace_of (finish E outputJSON l w)) = [].
Proof.
  unfold finish. destruct outputJSON; [|repeat split].
  destruct (MarshalIndent E (jsonMounts l)) as [data|err]; repeat split.
Qed.


(** ** Projections and concatenation *)

Lemma stderr_of_app (E : Env) (t1 t2 : list (Event E)) :
  stderr_of (t1 ++ t2) = (stderr_of t1 ++ stderr_of t2)%list.
Proof.
  induction t1 as [|e t1 IH]; [reflexivity|].
  destruct e; simpl; rewrite IH; reflexivity.
Qed.

Lemma stdout_of_app (E : Env) (t1 t2 : list (Event E)) :
  stdout_of (t1 ++ t2) = (stdout_of t1 ++ stdout_of t2)%list.
Proof.
  induction t1 as [|e t1 IH]; [reflexivity|].
  destruct e; simpl; rewrite IH; reflexivity.
Qed.

Lemma writes_app (E : Env) (t1 t2 : list (Event E)) :
  writes (t1 ++ t2) = (writes t1 ++ writes t2)%list.
Proof.
  induction t1 as [|e t1 IH]; [reflexivity|].
  destruct e; simpl; rewrite IH; reflexivity.
Qed.

Lemma silent_app (E : Env) (t1 t2 : list (Event E)) :
  silent (t1 ++ t2) = (silent t1 ++ silent t2)%list.
Proof. apply filter_app. Qed.

Lemma stderr_of_pendingLine (E : Env) (l : Locals) :
  stderr_of (@pendingLine E l)
  = match lastError l with Some e => [diagnostic e] | None => [] end.
Proof.
  unfold pendingLine. destruct (lastError l); reflexivity.
Qed.

(** ** The batch of three: A does not resolve, B mounts, C does not mount *)





(** ** The loop over the arguments as a whole *)

Lemma last_cons_default (A : Type) (l : list A) :
  forall x d : A, last (x :: l) d = last l x.
Proof.
  induction l as [|y l IH]; intros x d; [reflexivity|].
  change (last (x :: y :: l) d) with (last (y :: l) d).
  rewrite (IH y d), (IH y x). reflexivity.
Qed.

Lemma mountTargets_step (E : Env) (store : Store E) (n : nat) (outputJSON : bool)
  (name : string) (rest : list string) (l : Locals) (w : World E) :
  let r1 := mountOne E store n outputJSON name l w in
  let r2 := mountTargets E store n outputJSON rest (value_of r1) (world_of r1) in
  mountTargets E store n outputJSON (name :: rest) l w
  = ((trace_of r1 ++ trace_of r2)%list, world_of r2, value_of r2).
Proof.
  intros r1 r2. subst r1 r2. cbn [mountTargets]. unfold bind.
  destruct (mountOne E store n outputJSON name l w) as [[t1 w1] l1].
  unfold trace_of, world_of, value_of; cbn [fst snd].
  destruct (mountTargets E store n outputJSON rest l1 w1) as [[t2 w2] l2].
  reflexivity.
Qed.

(** What the loop leaves behind, in terms of the arguments that mount and
    of those that fail: a record per success in JSON mode, a line per
    success in text mode, the last failure as the pending one, and on
    standard error every failure but the one that stays pending. *)
Lemma mountTargets_summary (E : Env) (store : Store E) (n : nat) (outputJSON : bool)
  (args : list string) :
  forall (l : Locals) (w : World E),
    let r := mountTargets E store n outputJSON args l w in
    elems (jsonMounts (value_of r))
    = (elems (jsonMounts l)
       ++ (if outputJSON
           then map (fun p => resultOf n (fst p) (snd p)) (successes E store args w)
           else []))%list
    /\ stdout_of (trace_of r)
       = (if outputJSON then []
          else map (fun p => lineOf n (fst p) (snd p)) (successes E store args w))
    /\ lastError (value_of r)
       = last (map Some (failures E store args w)) (lastError l)
    /\ map diagnostic (pending (lastError l) ++ failures E store args w)
       = (stderr_of (trace_of r)
          ++ map diagnostic (pending (lastError (value_of r))))%list.
Proof.
  induction args as [|name rest IH]; intros l w r; subst r.
  - cbn. destruct outputJSON; rewrite ?app_nil_r; repeat split; reflexivity.
  - rewrite mountTargets_step. unfold trace_of at 1 3, value_of at 1 3 5; cbn [fst snd].
    cbn [successes failures].
    destruct (openBuilder E store name w) as [[b|err] w1] eqn:Ho.
    + destruct (Mount E b (BMountLabel E b) w1) as [[path|err] w2] eqn:Hm.
      * rewrite (mountOne_mounted E store n outputJSON name l w w1 w2 b path Ho Hm).
        destruct outputJSON; unfold world_of, value_of, trace_of; cbn [fst snd].
        -- specialize (IH {| jsonMounts := append (jsonMounts l) (resultOf n name path);
                             lastError := lastError l |} w2).
           cbv zeta in IH. destruct IH as (IH1 & IH2 & IH3 & IH4).
           cbn [jsonMounts lastError append elems] in *.
           repeat split.
           ++ unfold value_of in IH1. rewrite IH1. cbn [map fst snd].
              rewrite <- app_assoc. reflexivity.
           ++ rewrite stdout_of_app. unfold trace_of in IH2. rewrite IH2. reflexivity.
           ++ unfold value_of in IH3. exact IH3.
           ++ rewrite stderr_of_app. cbn [stderr_of app].
              unfold trace_of, value_of in IH4. exact IH4.
        -- specialize (IH l w2). cbv zeta in IH. destruct IH as (IH1 & IH2 & IH3 & IH4).
           repeat split.
           ++ unfold value_of in IH1. exact IH1.
           ++ rewrite stdout_of_app. unfold trace_of in IH2. rewrite IH2. reflexivity.
           ++ unfold value_of in IH3. exact IH3.
           ++ rewrite stderr_of_app. cbn [stderr_of app].
              unfold trace_of, value_of in IH4. exact IH4.
      * rewrite (mountOne_unmounted E store n outputJSON name l w w1 w2 b err Ho Hm).
        unfold world_of, value_of, trace_of; cbn [fst snd].
        specialize (IH {| jsonMounts := jsonMounts l;
                          lastError := Some (mountFailure E name b err) |} w2).
        cbv zeta in IH. destruct IH as (IH1 & IH2 & IH3 & IH4).
        cbn [jsonMounts lastError] in *.
        unfold value_of, trace_of in *.
        repeat split.
        -- exact IH1.
        -- rewrite stdout_of_app. rewrite IH2.
           cbn [stdout_of app]. unfold pendingLine.
           destruct (lastError l); reflexivity.
        -- rewrite IH3. cbn [map]. symmetry. apply last_cons_default.
        -- rewrite stderr_of_app. cbn [stderr_of].
           rewrite stderr_of_pendingLine. rewrite <- app_assoc. rewrite <- IH4.
           rewrite !map_app. cbn [pending map app].
           destruct (lastError l); reflexivity.
    + rewrite (mountOne_unresolved E store n outputJSON name l w w1 err Ho).
      unfold world_of, value_of, trace_of; cbn [fst snd].
      specialize (IH {| jsonMounts := jsonMounts l;
                        lastError := Some (readFailure E name err) |} w1).
      cbv zeta in IH. destruct IH as (IH1 & IH2 & IH3 & IH4).
      cbn [jsonMounts lastError] in *.
      unfold value_of, trace_of in *.
      repeat split.
      * exact IH1.
      * rewrite stdout_of_app. rewrite IH2.
        cbn [stdout_of app]. unfold pendingLine.
        destruct (lastError l); reflexivity.
      * rewrite IH3. cbn [map]. symmetry. apply last_cons_default.
      * rewrite stderr_of_app. cbn [stderr_of].
        rewrite stderr_of_pendingLine. rewrite <- app_assoc. rewrite <- IH4.
        rewrite !map_app. cbn [pending map app].
        destruct (lastError l); reflexivity.
Qed.

(** Where no argument fails, every argument is a success. *)
Lemma successes_all (E : Env) (store : Store E) (args : list string) :
  forall w : World E,
    failures E store args w = [] ->
    map fst (successes E store args w) = args.
Proof.
  induction args as [|name rest IH]; intros w Hf; [reflexivity|].
  cbn [failures successes] in *.
  destruct (openBuilder E store name w) as [[b|err] w1]; [|discriminate Hf].
  destruct (Mount E b (BMountLabel E b) w1) as [[path|err] w2]; [|discriminate Hf].
  cbn [map fst]. rewrite (IH w2 Hf). reflexivity.
Qed.

(** ** The listing branch *)

(** The listing loop never touches the pending failure. *)
Lemma listMounted_lastError (E : Env) (outputJSON : bool) (builders : list (Builder E)) :
  forall (l : Locals) (w : World E) (t : list (Event E)) (w' : World E) (l' : Locals),
    listMounted E outputJSON builders l w = (t, w', inl l') ->
    lastError l' = lastError l.
Proof.
  induction builders as [|b rest IH]; intros l w t w' l' Hrun.
  - cbn in Hrun. injection Hrun as _ _ Hl. subst l'. reflexivity.
  - cbn [listMounted] in Hrun. unfold bind, call in Hrun.
    destruct (Mounted E b w) as [[mounted|err] w1]; [|discriminate Hrun].
    destruct mounted.
    + destruct outputJSON.
      * destruct (listMounted E true rest _ w1) as [[t2 w2] r2] eqn:Hrest.
        injection Hrun as _ _ Hr. subst r2.
        apply IH in Hrest. exact Hrest.
      * unfold Printf_id_path, emit in Hrun.
        destruct (listMounted E false rest l w1) as [[t2 w2] r2] eqn:Hrest.
        injection Hrun as _ _ Hr. subst r2.
        apply IH in Hrest. exact Hrest.
    + destruct (listMounted E outputJSON rest l w1) as [[t2 w2] r2] eqn:Hrest.
      injection Hrun as _ _ Hr. subst r2.
      apply IH in Hrest. exact Hrest.
Qed.

(** A command that gets to its last lines is what came before, then the
    end. *)
Lemma mountCmd_reaches (E : Env) (args : list string) (outputJSON : bool)
  (w : World E) (store : Store E) (w0 : World E)
  (t : list (Event E)) (w' : World E) (l : Locals) :
  Reaches E args outputJSON w store w0 t w' l ->
  mountCmd E args outputJSON w
  = ((t ++ trace_of (finish E outputJSON l w'))%list, w',
     value_of (finish E outputJSON l w')).
Proof.
  intros (Hv & Hs & Hrun).
  rewrite (mountCmd_branch E args outputJSON w store w0 Hv Hs).
  destruct (finish E outputJSON l w') as [[t2 w2] r] eqn:Hend.
  assert (Hw : w2 = w').
  { pose proof (finish_quiet E outputJSON l w') as (Hq & _).
    rewrite Hend in Hq. exact Hq. }
  subst w2. unfold trace_of, value_of; cbn [fst snd].
  destruct args as [|name rest].
  - destruct Hrun as (builders & w1 & t' & Ho & Hl & Ht). subst t.
    cbn [length Nat.ltb Nat.leb]. unfold mountAll, bind, call.
    rewrite Ho, Hl, Hend. reflexivity.
  - destruct Hrun as (Hg & Hloop).
    change (0 <? length (name :: rest))%nat with true. cbv iota.
    unfold mountArgs. rewrite Hg.
    apply run_bind with (w1 := w') (a := l); assumption.
Qed.

(** ** The value the command returns *)

(** C3 (amended): a command that nothing cuts short (the checks pass, the
    listing branch meets no error, the results can be encoded) returns the
    failure that is pending at the end, which is the last failure of the
    loop, or nothing.  For a batch of targets that all succeed it returns
    nothing, and there is one result per target in the order of the
    request: the records that are encoded in JSON mode, the lines on
    standard output in text mode. *)
Theorem returns_last_pending (E : Env) (args : list string) (outputJSON : bool)
  (w : World E) (store : Store E) (w0 : World E)
  (t : list (Event E)) (w' : World E) (l : Locals) :
  Reaches E args outputJSON w store w0 t w' l ->
  Encodes E outputJSON l ->
  value_of (mountCmd E args outputJSON w) = lastError l
  /\ (args <> [] ->
      lastError l = last (map Some (failures E store args w0)) None)
  /\ (args = [] -> lastError l = None)
  /\ (args <> [] -> failures E store args w0 = [] ->
      value_of (mountCmd E args outputJSON w) = None
      /\ map fst (successes E store args w0) = args
      /\ if outputJSON
         then elems (jsonMounts l)
              = map (fun p => resultOf (length args) (fst p) (snd p))
                  (successes E store args w0)
              /\ exists data,
                   MarshalIndent E (jsonMounts l) = inl data
                   /\ stdout_of (trace_of (mountCmd E args outputJSON w))
                      = [data ++ nl]
         else stdout_of (trace_of (mountCmd E args outputJSON w))
              = map (fun p => lineOf (length args) (fst p) (snd p))
                  (successes E store args w0)).
Proof.
  intros Hreach Henc.
  pose proof (mountCmd_reaches E args outputJSON w store w0 t w' l Hreach) as Hcmd.
  assert (Hval : value_of (finish E outputJSON l w') = lastError l).
  { destruct Henc as [Hj | (data & Hd)].
    - subst outputJSON. reflexivity.
    - destruct outputJSON; [|reflexivity].
      rewrite (finish_json E l w' data Hd). reflexivity. }
  assert (Hret : value_of (mountCmd E args outputJSON w) = lastError l).
  { rewrite Hcmd. unfold value_of at 1; cbn [snd]. exact Hval. }
  destruct Hreach as (Hv & Hs & Hrun).
  split; [exact Hret|]. split; [|split].
  - intros Hne. destruct args as [|name rest]; [congruence|].
    destruct Hrun as (_ & Hloop).
    pose proof (mountTargets_summary E store (length (name :: rest)) outputJSON
                  (name :: rest) locals0 w0) as Hsum.
    cbv zeta in Hsum. rewrite Hloop in Hsum.
    destruct Hsum as (_ & _ & H3 & _). exact H3.
  - intros Hnil. subst args.
    destruct Hrun as (builders & w1 & t' & _ & Hl & _).
    apply listMounted_lastError in Hl. exact Hl.
  - intros Hne Hok. destruct args as [|name rest]; [congruence|].
    destruct Hrun as (_ & Hloop).
    pose proof (mountTargets_summary E store (length (name :: rest)) outputJSON
                  (name :: rest) locals0 w0) as Hsum.
    cbv zeta in Hsum. rewrite Hloop in Hsum.
    unfold value_of, trace_of in Hsum; cbn [fst snd] in Hsum.
    destruct Hsum as (H1 & H2 & H3 & _).
    rewrite Hok in H3. cbn in H3.
    split; [rewrite Hret; exact H3|].
    split; [apply successes_all; exact Hok|].
    destruct outputJSON.
    + split; [exact H1|].
      destruct Henc as [Hj | (data & Hd)]; [discriminate Hj|].
      exists data. split; [exact Hd|].
      rewrite Hcmd. unfold trace_of at 1; cbn [fst].
      rewrite stdout_of_app. rewrite H2.
      rewrite (finish_json E l w' data Hd). reflexivity.
    + rewrite Hcmd. unfold trace_of at 1; cbn [fst].
      rewrite stdout_of_app. rewrite H2.
      rewrite finish_text. unfold trace_of; cbn [fst stdout_of].
      apply app_nil_r.
Qed.

(** Two targets that both mount, as root and in JSON mode. *)
Lemma returns_last_pending_witness :
  value_of (mountCmd rootEnv ["B"; "D"] true []) = None
  /\ map fst (successes rootEnv "overlay" ["B"; "D"] []) = ["B"; "D"]
  /\ elems (Some [{| Container := "B"; MountPoint := "/mnt/B" |};
                  {| Container := "D"; MountPoint := "/mnt/D" |}])
     = map (fun p => resultOf 2 (fst p) (snd p))
         (successes rootEnv "overlay" ["B"; "D"] []).
Proof.
  pose proof (returns_last_pending rootEnv ["B"; "D"] true [] "overlay" []
                [CallOpenBuilder "B"; @CallMount rootEnv (tb "B" Unmounted) "";
                 CallOpenBuilder "D"; @CallMount rootEnv (tb "D" Unmounted) ""]
                []
                {| jsonMounts := Some [{| Container := "B"; MountPoint := "/mnt/B" |};
                                       {| Container := "D"; MountPoint := "/mnt/D" |}];
                   lastError := None |}) as H.
  destruct H as (_ & _ & _ & Hall).
  - unfold Reaches. repeat split; reflexivity.
  - right. eexists. reflexivity.
  - destruct Hall as (Hnone & Hargs & Hres & _).
    + discriminate.
    + reflexivity.
    + split; [exact Hnone|]. split; [exact Hargs | exact Hres].
Defined.

(** C3 as it was stated does not hold: the rootless guard returns an error
    although no failure is pending, and none ever was. *)
Lemma guard_error_is_not_pending :
  value_of (mountCmd userEnv ["B"] false []) = Some (rootlessError "overlay")
  /\ failures userEnv "overlay" ["B"] [] = []
  /\ value_of (mountCmd userEnv ["B"] false [])
     <> last (map Some (failures userEnv "overlay" ["B"] [])) None.
Proof.
  split; [reflexivity|]. split; [reflexivity|].
  intros H. vm_compute in H. discriminate H.
Qed.

(** ** What the listing loop leaves behind *)

Lemma listMounted_step (E : Env) (outputJSON : bool) (b : Builder E)
  (rest : list (Builder E)) (l : Locals) (w : World E) :
  listMounted E outputJSON (b :: rest) l w
  = match Mounted E b w with
    | (inr err, w1) => ([CallMounted b], w1, inr err)
    | (inl true, w1) =>
        let l1 := if outputJSON
                  then {| jsonMounts := append (jsonMounts l) (resultOfBuilder E b);
                          lastError := lastError l |}
                  else l in
        let r := listMounted E outputJSON rest l1 w1 in
        ((CallMounted b
          :: (if outputJSON then [] else [Stdout (lineOfBuilder E b)])
          ++ trace_of r)%list, world_of r, value_of r)
    | (inl false, w1) =>
        let r := listMounted E outputJSON rest l w1 in
        (CallMounted b :: trace_of r, world_of r, value_of r)
    end.
Proof.
  cbn [listMounted]. unfold bind, call.
  destruct (Mounted E b w) as [[mounted|err] w1]; [|reflexivity].
  destruct mounted.
  - destruct outputJSON; cbv zeta.
    + unfold resultOfBuilder.
      destruct (listMounted E true rest _ w1) as [[t2 w2] r2]. reflexivity.
    + unfold Printf_id_path, emit, lineOfBuilder.
      destruct (listMounted E false rest l w1) as [[t2 w2] r2]. reflexivity.
  - cbv zeta. destruct (listMounted E outputJSON rest l w1) as [[t2 w2] r2].
    reflexivity.
Qed.

(** A line in text mode and a record in JSON mode for every builder that
    says it is mounted, nothing on standard error. *)
Lemma listMounted_summary (E : Env) (outputJSON : bool) (builders : list (Builder E)) :
  forall (l : Locals) (w : World E),
    let r := listMounted E outputJSON builders l w in
    stdout_of (trace_of r)
    = (if outputJSON then []
       else map (lineOfBuilder E) (mountedBuilders E builders w))
    /\ stderr_of (trace_of r) = []
    /\ match value_of r with
       | inl l' =>
           elems (jsonMounts l')
           = (elems (jsonMounts l)
              ++ (if outputJSON
                  then map (resultOfBuilder E) (mountedBuilders E builders w)
                  else []))%list
       | inr _ => True
       end.
Proof.
  induction builders as [|b rest IH]; intros l w r; subst r.
  - cbn. destruct outputJSON; rewrite ?app_nil_r; repeat split; reflexivity.
  - rewrite listMounted_step. cbn [mountedBuilders].
    destruct (Mounted E b w) as [[mounted|err] w1].
    + destruct mounted; cbv zeta.
      * destruct outputJSON.
        -- specialize (IH {| jsonMounts := append (jsonMounts l) (resultOfBuilder E b);
                             lastError := lastError l |} w1).
           cbv zeta in IH. destruct IH as (IH1 & IH2 & IH3).
           rewrite !trace_of_triple, !value_of_triple; cbn [app stdout_of stderr_of].
           repeat split; [exact IH1 | exact IH2 |].
           destruct (value_of (listMounted E true rest _ w1)) as [l'|err]; [|exact I].
           rewrite IH3. cbn [jsonMounts append elems map].
           rewrite <- app_assoc. reflexivity.
        -- specialize (IH l w1). cbv zeta in IH. destruct IH as (IH1 & IH2 & IH3).
           rewrite !trace_of_triple, !value_of_triple; cbn [app stdout_of stderr_of map].
           repeat split; [rewrite IH1; reflexivity | exact IH2 | exact IH3].
      * specialize (IH l w1). cbv zeta in IH. destruct IH as (IH1 & IH2 & IH3).
        rewrite !trace_of_triple, !value_of_triple; cbn [stdout_of stderr_of].
        repeat split; [exact IH1 | exact IH2 | exact IH3].
    + destruct outputJSON; repeat split; reflexivity.
Qed.

(** ** The identifier of a result *)

(** omitempty: the member is written exactly when the field has a text. *)
Lemma has_container_iff (m : jsonMount) :
  has_container m = true <-> Container m <> "".
Proof.
  unfold has_container, has_member, members.
  destruct (String.eqb (Container m) "") eqn:Heq.
  - apply String.eqb_eq in Heq. cbn. split; [discriminate | congruence].
  - apply String.eqb_neq in Heq. cbn. split; [intros _; exact Heq | reflexivity].
Qed.

(** A success carries the name of one of the arguments. *)
Lemma successes_incl (E : Env) (store : Store E) (args : list string) :
  forall (w : World E) (p : string * string),
    In p (successes E store args w) -> In (fst p) args.
Proof.
  induction args as [|name rest IH]; intros w p Hin; [contradiction|].
  cbn [successes] in Hin.
  destruct (openBuilder E store name w) as [[b|err] w1].
  - destruct (Mount E b (BMountLabel E b) w1) as [[path|err] w2].
    + destruct Hin as [Hp | Hin].
      * subst p. left. reflexivity.
      * right. exact (IH w2 p Hin).
    + right. exact (IH w2 p Hin).
  - right. exact (IH w1 p Hin).
Qed.

(** A builder that is listed as mounted is one of the enumeration. *)
Lemma mountedBuilders_incl (E : Env) (builders : list (Builder E)) :
  forall (w : World E) (b : Builder E),
    In b (mountedBuilders E builders w) -> In b builders.
Proof.
  induction builders as [|b' rest IH]; intros w b Hin; [contradiction|].
  cbn [mountedBuilders] in Hin.
  destruct (Mounted E b' w) as [[mounted|err] w1]; [|contradiction].
  destruct mounted.
  - destruct Hin as [Hb | Hin]; [left; exact Hb | right; exact (IH w1 b Hin)].
  - right. exact (IH w1 b Hin).
Qed.

(** The results of a command that gets to its last lines: the records in
    JSON mode, the lines in text mode. *)
Lemma results_of_run (E : Env) (args : list string) (outputJSON : bool)
  (w : World E) (store : Store E) (w0 : World E)
  (t : list (Event E)) (w' : World E) (l : Locals) :
  Reaches E args outputJSON w store w0 t w' l ->
  match args with
  | [] =>
      exists builders w1,
        openBuilders E store w0 = (inl builders, w1)
        /\ elems (jsonMounts l)
           = (if outputJSON
              then map (resultOfBuilder E) (mountedBuilders E builders w1)
              else [])
        /\ stdout_of t
           = (if outputJSON then []
              else map (lineOfBuilder E) (mountedBuilders E builders w1))
  | _ :: _ =>
      elems (jsonMounts l)
      = (if outputJSON
         then map (fun p => resultOf (length args) (fst p) (snd p))
                (successes E store args w0)
         else [])
      /\ stdout_of t
         = (if outputJSON then []
            else map (fun p => lineOf (length args) (fst p) (snd p))
                   (successes E store args w0))
  end.
Proof.
  intros (Hv & Hs & Hrun). destruct args as [|name rest].
  - destruct Hrun as (builders & w1 & t' & Ho & Hl & Ht). subst t.
    exists builders, w1. split; [exact Ho|].
    pose proof (listMounted_summary E outputJSON builders locals0 w1) as Hsum.
    cbv zeta in Hsum. rewrite Hl in Hsum.
    rewrite trace_of_triple, value_of_triple in Hsum.
    destruct Hsum as (H1 & _ & H3). split; [exact H3 | exact H1].
  - destruct Hrun as (_ & Hloop).
    pose proof (mountTargets_summary E store (length (name :: rest)) outputJSON
                  (name :: rest) locals0 w0) as Hsum.
    cbv zeta in Hsum. rewrite Hloop in Hsum.
    rewrite trace_of_triple, value_of_triple in Hsum.
    destruct Hsum as (H1 & H2 & _). split; [exact H1 | exact H2].
Qed.

(** C4: in a command that gets to its last lines, where names and
    containers have a text, a record is written with its identifier
    exactly when there is more than one target or none at all.  A single
    target gives records without identifier and lines with the path
    alone; several targets give each record and each line the identifier
    and the path; the listing branch gives every mounted builder a record
    or a line with its container and its mount point, however many there
    are. *)
Theorem identifier_presence (E : Env) (args : list string) (outputJSON : bool)
  (w : World E) (store : Store E) (w0 : World E)
  (t : list (Event E)) (w' : World E) (l : Locals) :
  Reaches E args outputJSON w store w0 t w' l ->
  Named E args store w0 ->
  (forall m, In m (elems (jsonMounts l)) ->
     (has_container m = true <-> (1 < length args)%nat \/ args = []))
  /\ match args with
     | [] =>
         exists builders w1,
           openBuilders E store w0 = (inl builders, w1)
           /\ elems (jsonMounts l)
              = (if outputJSON
                 then map (fun b => {| Container := BContainer E b;
                                       MountPoint := BMountPoint E b |})
                        (mountedBuilders E builders w1)
                 else [])
           /\ stdout_of t
              = (if outputJSON then []
                 else map (fun b => BContainer E b ++ " " ++ BMountPoint E b ++ nl)
                        (mountedBuilders E builders w1))
     | [_] =>
         elems (jsonMounts l)
         = (if outputJSON
            then map (fun p => {| Container := ""; MountPoint := snd p |})
                   (successes E store args w0)
            else [])
         /\ stdout_of t
            = (if outputJSON then []
               else map (fun p => snd p ++ nl) (successes E store args w0))
     | _ :: _ :: _ =>
         elems (jsonMounts l)
         = (if outputJSON
            then map (fun p => {| Container := fst p; MountPoint := snd p |})
                   (successes E store args w0)
            else [])
         /\ stdout_of t
            = (if outputJSON then []
               else map (fun p => fst p ++ " " ++ snd p ++ nl)
                      (successes E store args w0))
     end.
Proof.
  intros Hreach (Hargs & Hbuilders).
  pose proof (results_of_run E args outputJSON w store w0 t w' l Hreach) as Hres.
  destruct args as [|a [|a' rest]].
  - destruct Hres as (builders & w1 & Ho & Hj & Ht). split.
    + intros m Hin. split; [intros _; right; reflexivity|]. intros _.
      apply has_container_iff. rewrite Hj in Hin.
      destruct outputJSON; [|contradiction].
      apply in_map_iff in Hin. destruct Hin as (b & Hb & Hin). subst m.
      apply mountedBuilders_incl in Hin.
      specialize (Hbuilders builders w1 Ho).
      rewrite Forall_forall in Hbuilders. apply Hbuilders. exact Hin.
    + exists builders, w1. split; [exact Ho|]. split; [exact Hj | exact Ht].
  - destruct Hres as (Hj & Ht). cbn [length] in Hj, Ht.
    unfold resultOf, lineOf in Hj, Ht. cbn [Nat.ltb Nat.leb] in Hj, Ht.
    split; [|split; [exact Hj | exact Ht]].
    intros m Hin. rewrite Hj in Hin. destruct outputJSON; [|contradiction].
    apply in_map_iff in Hin. destruct Hin as (p & Hp & _). subst m.
    split.
    + intros Hc. apply has_container_iff in Hc. cbn in Hc. congruence.
    + intros [Hlt | Hnil]; [cbn in Hlt; lia | discriminate Hnil].
  - destruct Hres as (Hj & Ht). cbn [length] in Hj, Ht.
    unfold resultOf, lineOf in Hj, Ht. cbn [Nat.ltb Nat.leb] in Hj, Ht.
    split; [|split; [exact Hj | exact Ht]].
    intros m Hin. rewrite Hj in Hin. destruct outputJSON; [|contradiction].
    apply in_map_iff in Hin. destruct Hin as (p & Hp & Hin). subst m.
    split.
    + intros _. left. cbn. lia.
    + intros _. apply has_container_iff. cbn [Container].
      apply successes_incl in Hin.
      rewrite Forall_forall in Hargs. apply Hargs. exact Hin.
Qed.

(** One target and two targets in JSON mode: the single record has no
    identifier, the two records have theirs. *)
Lemma identifier_presence_witness :
  (has_container {| Container := ""; MountPoint := "/mnt/B" |} = true
   <-> (1 < length ["B"])%nat \/ ["B"] = [])
  /\ (has_container {| Container := "D"; MountPoint := "/mnt/D" |} = true
      <-> (1 < length ["B"; "D"])%nat \/ ["B"; "D"] = []).
Proof.
  split.
  - refine (proj1 (identifier_presence rootEnv ["B"] true [] "overlay" []
                     [CallOpenBuilder "B"; @CallMount rootEnv (tb "B" Unmounted) ""]
                     []
                     {| jsonMounts := Some [{| Container := ""; MountPoint := "/mnt/B" |}];
                        lastError := None |} _ _) _ _).
    + unfold Reaches. repeat split; reflexivity.
    + split.
      * repeat constructor. discriminate.
      * intros builders w1 H. injection H as Hb _. subst builders. constructor.
    + left. reflexivity.
  - refine (proj1 (identifier_presence rootEnv ["B"; "D"] true [] "overlay" []
                     [CallOpenBuilder "B"; @CallMount rootEnv (tb "B" Unmounted) "";
                      CallOpenBuilder "D"; @CallMount rootEnv (tb "D" Unmounted) ""]
                     []
                     {| jsonMounts := Some [{| Container := "B"; MountPoint := "/mnt/B" |};
                                            {| Container := "D"; MountPoint := "/mnt/D" |}];
                        lastError := None |} _ _) _ _).
    + unfold Reaches. repeat split; reflexivity.
    + split.
      * repeat constructor; discriminate.
      * intros builders w1 H. injection H as Hb _. subst builders. constructor.
    + right. left. reflexivity.
Defined.

(** ** The slice of the results is nil until something is appended *)

Lemma grown_refl (s : slice jsonMount) : grown s s.
Proof. left. reflexivity. Qed.

Lemma grown_append (s : slice jsonMount) (m : jsonMount) : grown s (append s m).
Proof. right. exists (elems s), m. reflexivity. Qed.

Lemma grown_trans (s1 s2 s3 : slice jsonMount) :
  grown s1 s2 -> grown s2 s3 -> grown s1 s3.
Proof.
  intros H12 [H23 | H23].
  - subst s3. exact H12.
  - right. exact H23.
Qed.

Lemma grown_empty (s s' : slice jsonMount) :
  grown s s' -> elems s' = [] -> s' = s.
Proof.
  intros [H | (ms & m & H)] He; [exact H|].
  subst s'. cbn in He. destruct ms; discriminate He.
Qed.

Lemma mountOne_grown (E : Env) (store : Store E) (n : nat) (outputJSON : bool)
  (name : string) (l : Locals) (w : World E) :
  grown (jsonMounts l) (jsonMounts (value_of (mountOne E store n outputJSON name l w))).
Proof.
  destruct (openBuilder E store name w) as [[b|err] w1] eqn:Ho.
  - destruct (Mount E b (BMountLabel E b) w1) as [[path|err] w2] eqn:Hm.
    + rewrite (mountOne_mounted E store n outputJSON name l w w1 w2 b path Ho Hm).
      destruct outputJSON; rewrite value_of_triple.
      * apply grown_append.
      * apply grown_refl.
    + rewrite (mountOne_unmounted E store n outputJSON name l w w1 w2 b err Ho Hm).
      apply grown_refl.
  - rewrite (mountOne_unresolved E store n outputJSON name l w w1 err Ho).
    apply grown_refl.
Qed.

Lemma mountTargets_grown (E : Env) (store : Store E) (n : nat) (outputJSON : bool)
  (args : list string) :
  forall (l : Locals) (w : World E),
    grown (jsonMounts l)
      (jsonMounts (value_of (mountTargets E store n outputJSON args l w))).
Proof.
  induction args as [|name rest IH]; intros l w.
  - apply grown_refl.
  - rewrite mountTargets_step. rewrite value_of_triple.
    eapply grown_trans; [apply mountOne_grown | apply IH].
Qed.

Lemma listMounted_grown (E : Env) (outputJSON : bool) (builders : list (Builder E)) :
  forall (l : Locals) (w : World E),
    match value_of (listMounted E outputJSON builders l w) with
    | inl l' => grown (jsonMounts l) (jsonMounts l')
    | inr _ => True
    end.
Proof.
  induction builders as [|b rest IH]; intros l w.
  - apply grown_refl.
  - rewrite listMounted_step.
    destruct (Mounted E b w) as [[mounted|err] w1]; [|exact I].
    destruct mounted; cbv zeta; rewrite value_of_triple.
    + destruct outputJSON.
      * specialize (IH {| jsonMounts := append (jsonMounts l) (resultOfBuilder E b);
                          lastError := lastError l |} w1).
        destruct (value_of (listMounted E true rest _ w1)) as [l'|err]; [|exact I].
        eapply grown_trans; [apply grown_append | exact IH].
      * apply IH.
    + apply IH.
Qed.

(** A command that gets to its last lines without a result still has the
    nil slice it began with. *)
Lemma no_result_is_nil (E : Env) (args : list string) (outputJSON : bool)
  (w : World E) (store : Store E) (w0 : World E)
  (t : list (Event E)) (w' : World E) (l : Locals) :
  Reaches E args outputJSON w store w0 t w' l ->
  elems (jsonMounts l) = [] ->
  jsonMounts l = None.
Proof.
  intros (_ & _ & Hrun) Hempty. destruct args as [|name rest].
  - destruct Hrun as (builders & w1 & t' & _ & Hl & _).
    pose proof (listMounted_grown E outputJSON builders locals0 w1) as Hg.
    rewrite Hl, value_of_triple in Hg.
    exact (grown_empty _ _ Hg Hempty).
  - destruct Hrun as (_ & Hloop).
    pose proof (mountTargets_grown E store (length (name :: rest)) outputJSON
                  (name :: rest) locals0 w0) as Hg.
    rewrite Hloop, value_of_triple in Hg.
    exact (grown_empty _ _ Hg Hempty).
Qed.

(** In JSON mode nothing goes to standard output before the end. *)
Lemma json_buffers (E : Env) (args : list string)
  (w : World E) (store : Store E) (w0 : World E)
  (t : list (Event E)) (w' : World E) (l : Locals) :
  Reaches E args true w store w0 t w' l ->
  stdout_of t = [].
Proof.
  intros Hreach.
  pose proof (results_of_run E args true w store w0 t w' l Hreach) as Hres.
  destruct args as [|name rest].
  - destruct Hres as (builders & w1 & _ & _ & Ht). exact Ht.
  - destruct Hres as (_ & Ht). exact Ht.
Qed.

(** ** JSON mode without a result *)

(** C5 (amended): with the encoder of the Go library, a command in JSON
    mode that gets to its last lines without a result writes one document
    to standard output, after everything else, and the document is the
    token null, four characters and a line feed: the slice of the results
    is still nil, and a nil slice is not encoded as an empty array. *)
Theorem json_without_results (E : Env) (enc : string -> string)
  (args : list string) (w : World E) (store : Store E) (w0 : World E)
  (t : list (Event E)) (w' : World E) (l : Locals) :
  GoEncoder E enc ->
  Reaches E args true w store w0 t w' l ->
  elems (jsonMounts l) = [] ->
  mountCmd E args true w = ((t ++ [Stdout ("null" ++ nl)])%list, w', lastError l)
  /\ stdout_of (trace_of (mountCmd E args true w)) = ["null" ++ nl]
  /\ String.length "null" = 4.
Proof.
  intros Henc Hreach Hempty.
  pose proof (no_result_is_nil E args true w store w0 t w' l Hreach Hempty) as Hnil.
  assert (Hdata : MarshalIndent E (jsonMounts l) = inl "null").
  { rewrite Hnil. rewrite (Henc None). reflexivity. }
  assert (Hrun : mountCmd E args true w
                 = ((t ++ [Stdout ("null" ++ nl)])%list, w', lastError l)).
  { rewrite (mountCmd_reaches E args true w store w0 t w' l Hreach).
    rewrite (finish_json E l w' "null" Hdata). reflexivity. }
  split; [exact Hrun|]. split; [|reflexivity].
  rewrite Hrun, trace_of_triple, stdout_of_app.
  rewrite (json_buffers E args w store w0 t w' l Hreach). reflexivity.
Qed.

(** The listing branch on a store without containers, and one target that
    does not resolve. *)
Lemma json_without_results_witness :
  mountCmd rootEnv [] true []
  = ([CallOpenBuilders; Stdout ("null" ++ nl)], [], None)
  /\ stdout_of (trace_of (mountCmd rootEnv ["A"] true [])) = ["null" ++ nl].
Proof.
  split.
  - refine (proj1 (json_without_results rootEnv quoted [] [] "overlay" []
                     [CallOpenBuilders] [] locals0 _ _ _)).
    + intros v. reflexivity.
    + unfold Reaches. split; [reflexivity|]. split; [reflexivity|].
      exists [], [], []. repeat split; reflexivity.
    + reflexivity.
  - refine (proj1 (proj2 (json_without_results rootEnv quoted ["A"] []
                     "overlay" [] [CallOpenBuilder "A"] []
                     {| jsonMounts := None;
                        lastError := Some (readFailure rootEnv "A"
                                             (Errorf "container not known")) |}
                     _ _ _))).
    + intros v. reflexivity.
    + unfold Reaches. repeat split; reflexivity.
    + reflexivity.
Defined.

(** C5 as it was stated does not hold: what is written for no result is
    not the empty array. *)
Lemma empty_listing_is_not_empty_array :
  stdout_of (trace_of (mountCmd rootEnv [] true [])) = ["null" ++ nl]
  /\ stdout_of (trace_of (mountCmd rootEnv [] true [])) <> ["[]" ++ nl].
Proof.
  split; [reflexivity|].
  intros H. vm_compute in H. discriminate H.
Qed.

(** ** The listing branch stops at the first query that fails *)

Lemma queried_app (E : Env) (t1 t2 : list (Event E)) :
  queried (t1 ++ t2) = (queried t1 ++ queried t2)%list.
Proof.
  induction t1 as [|e t1 IH]; [reflexivity|].
  destruct e; simpl; rewrite IH; reflexivity.
Qed.

(** A listing loop that meets no error asks every builder, once, in the
    order of the enumeration. *)
Lemma listMounted_queried (E : Env) (outputJSON : bool) (builders : list (Builder E)) :
  forall (l : Locals) (w : World E) (t : list (Event E)) (w' : World E) (l' : Locals),
    listMounted E outputJSON builders l w = (t, w', inl l') ->
    queried t = builders.
Proof.
  induction builders as [|b rest IH]; intros l w t w' l' Hrun.
  - cbn in Hrun. injection Hrun as Ht _ _. subst t. reflexivity.
  - rewrite listMounted_step in Hrun.
    destruct (Mounted E b w) as [[mounted|err] w1]; [|discriminate Hrun].
    destruct mounted; cbv zeta in Hrun.
    + injection Hrun as Ht Hw Hv. subst t.
      cbn [queried]. rewrite queried_app. f_equal.
      replace (queried (if outputJSON then [] else [Stdout (lineOfBuilder E b)]))
        with (@nil (Builder E)) by (destruct outputJSON; reflexivity).
      cbn [app]. eapply IH. rewrite <- Hv. apply run_triple.
    + injection Hrun as Ht Hw Hv. subst t.
      cbn [queried]. f_equal. eapply IH. rewrite <- Hv. apply run_triple.
Qed.

(** The loop over a list in two parts: if the first part meets no error
    the loop goes on with the second. *)
Lemma listMounted_app (E : Env) (outputJSON : bool) (pre post : list (Builder E)) :
  forall (l : Locals) (w : World E) (t1 : list (Event E)) (w1 : World E) (l1 : Locals),
    listMounted E outputJSON pre l w = (t1, w1, inl l1) ->
    listMounted E outputJSON (pre ++ post) l w
    = ((t1 ++ trace_of (listMounted E outputJSON post l1 w1))%list,
       world_of (listMounted E outputJSON post l1 w1),
       value_of (listMounted E outputJSON post l1 w1)).
Proof.
  induction pre as [|b pre IH]; intros l w t1 w1 l1 Hrun.
  - cbn in Hrun. injection Hrun as Ht Hw Hl. subst t1 w1 l1.
    cbn [app]. apply run_triple.
  - cbn [app]. rewrite listMounted_step in Hrun. rewrite listMounted_step.
    destruct (Mounted E b w) as [[mounted|err] w2]; [|discriminate Hrun].
    destruct mounted; cbv zeta in Hrun |- *.
    + injection Hrun as Ht Hw Hv. subst t1 w1.
      match type of Hv with
      | value_of (listMounted E outputJSON pre ?l2 w2) = _ =>
          rewrite (IH l2 w2 _ _ l1
                     (eq_trans (run_triple E _ (listMounted E outputJSON pre l2 w2))
                               (f_equal _ Hv)))
      end.
      rewrite trace_of_triple, world_of_triple, value_of_triple.
      cbn [app]. rewrite app_assoc. reflexivity.
    + injection Hrun as Ht Hw Hv. subst t1 w1.
      rewrite (IH l w2 _ _ l1
                 (eq_trans (run_triple E _ (listMounted E outputJSON pre l w2))
                           (f_equal _ Hv))).
      rewrite trace_of_triple, world_of_triple, value_of_triple.
      reflexivity.
Qed.

(** C6: in the listing branch, when the query of the k-th enumerated
    builder fails after the k-1 before it have answered, the command ends
    there and returns that error as it is.  The builders that were asked
    are the first k and no other; what was written or stored comes from
    the first k-1 alone; in JSON mode nothing at all is written to
    standard output, and nothing goes to standard error. *)
Theorem listing_hard_stop (E : Env) (outputJSON : bool)
  (w : World E) (store : Store E) (w0 w1 w2 w3 : World E)
  (pre post : list (Builder E)) (b : Builder E)
  (t_pre : list (Event E)) (l : Locals) (err : error) :
  VerifyFlagsArgsOrder E [] = None ->
  getStore E w = (inl store, w0) ->
  openBuilders E store w0 = (inl (pre ++ b :: post)%list, w1) ->
  listMounted E outputJSON pre locals0 w1 = (t_pre, w2, inl l) ->
  Mounted E b w2 = (inr err, w3) ->
  mountCmd E [] outputJSON w
  = (CallOpenBuilders :: (t_pre ++ [CallMounted b])%list, w3, Some err)
  /\ queried (trace_of (mountCmd E [] outputJSON w)) = (pre ++ [b])%list
  /\ stdout_of (trace_of (mountCmd E [] outputJSON w))
     = (if outputJSON then []
        else map (lineOfBuilder E) (mountedBuilders E pre w1))
  /\ elems (jsonMounts l)
     = (if outputJSON
        then map (resultOfBuilder E) (mountedBuilders E pre w1)
        else [])
  /\ stderr_of (trace_of (mountCmd E [] outputJSON w)) = [].
Proof.
  intros Hv Hs Ho Hpre Hq.
  assert (Hrun : mountCmd E [] outputJSON w
                 = (CallOpenBuilders :: (t_pre ++ [CallMounted b])%list, w3, Some err)).
  { rewrite (mountCmd_branch E [] outputJSON w store w0 Hv Hs).
    cbn [length Nat.ltb Nat.leb]. unfold mountAll, bind, call. rewrite Ho.
    rewrite (listMounted_app E outputJSON pre (b :: post) locals0 w1 t_pre w2 l Hpre).
    rewrite listMounted_step, Hq.
    rewrite trace_of_triple, world_of_triple, value_of_triple.
    cbn [ret app]. rewrite app_nil_r. reflexivity. }
  pose proof (listMounted_summary E outputJSON pre locals0 w1) as Hsum.
  cbv zeta in Hsum. rewrite Hpre in Hsum.
  rewrite trace_of_triple, value_of_triple in Hsum.
  destruct Hsum as (Hout & Herr & Hres).
  rewrite Hrun, trace_of_triple.
  split; [reflexivity|]. split; [|split; [|split]].
  - cbn [queried]. rewrite queried_app.
    rewrite (listMounted_queried E outputJSON pre locals0 w1 t_pre w2 l Hpre).
    reflexivity.
  - cbn [stdout_of]. rewrite stdout_of_app, Hout. cbn [stdout_of].
    apply app_nil_r.
  - exact Hres.
  - cbn [stderr_of]. rewrite stderr_of_app, Herr. reflexivity.
Qed.

(** Three containers, the second of which cannot be queried, in text
    mode: the line of the first is written, the third is never asked. *)
Lemma listing_hard_stop_witness :
  mountCmd rootEnv [] false
    [tb "x" IsMounted; tb "y" QueryFails; tb "z" IsMounted]
  = ([CallOpenBuilders;
      @CallMounted rootEnv (tb "x" IsMounted);
      Stdout ("x /mnt/x" ++ nl);
      @CallMounted rootEnv (tb "y" QueryFails)],
     [tb "x" IsMounted; tb "y" QueryFails; tb "z" IsMounted],
     Some (Errorf "query failed"))
  /\ queried (trace_of (mountCmd rootEnv [] false
                          [tb "x" IsMounted; tb "y" QueryFails; tb "z" IsMounted]))
     = [tb "x" IsMounted; tb "y" QueryFails].
Proof.
  pose proof (listing_hard_stop rootEnv false
                [tb "x" IsMounted; tb "y" QueryFails; tb "z" IsMounted]
                "overlay"
                [tb "x" IsMounted; tb "y" QueryFails; tb "z" IsMounted]
                [tb "x" IsMounted; tb "y" QueryFails; tb "z" IsMounted]
                [tb "x" IsMounted; tb "y" QueryFails; tb "z" IsMounted]
                [tb "x" IsMounted; tb "y" QueryFails; tb "z" IsMounted]
                [tb "x" IsMounted] [tb "z" IsMounted] (tb "y" QueryFails)
                [@CallMounted rootEnv (tb "x" IsMounted); Stdout ("x /mnt/x" ++ nl)]
                locals0 (Errorf "query failed")) as H.
  destruct H as (Hrun & Hq & _).
  - reflexivity.
  - reflexivity.
  - reflexivity.
  - reflexivity.
  - reflexivity.
  - split; [exact Hrun | exact Hq].
Defined.

(** ** No failure of the loop goes unnoticed, but for one case *)





(** ** One target, mounted *)

Lemma mountTargets_single (E : Env) (store : Store E) (outputJSON : bool)
  (name : string) (w0 w1 w2 : World E) (b : Builder E) (path : string) :
  openBuilder E store name w0 = (inl b, w1) ->
  Mount E b (BMountLabel E b) w1 = (inl path, w2) ->
  mountTargets E store 1 outputJSON [name] locals0 w0
  = (([CallOpenBuilder name; CallMount b (BMountLabel E b)]
      ++ (if outputJSON then [] else [Stdout (path ++ nl)]))%list,
     w2,
     if outputJSON
     then {| jsonMounts := Some [{| Container := ""; MountPoint := path |}];
             lastError := None |}
     else locals0).
Proof.
  intros Ho Hm. cbn [mountTargets]. unfold bind.
  rewrite (mountOne_mounted E store 1 outputJSON name locals0 w0 w1 w2 b path Ho Hm).
  destruct outputJSON; reflexivity.
Qed.

Lemma mountCmd_single (E : Env) (outputJSON : bool) (name : string)
  (w : World E) (store : Store E) (w0 w1 w2 : World E)
  (b : Builder E) (path : string) :
  Cleared E [name] w store w0 ->
  openBuilder E store name w0 = (inl b, w1) ->
  Mount E b (BMountLabel E b) w1 = (inl path, w2) ->
  world_of (mountCmd E [name] outputJSON w) = w2
  /\ stdout_of (trace_of (mountCmd E [name] outputJSON w))
     = if outputJSON
       then match MarshalIndent E (Some [{| Container := ""; MountPoint := path |}]) with
            | inl data => [data ++ nl]
            | inr _ => []
            end
       else [path ++ nl].
Proof.
  intros (Hv & Hs & Hg) Ho Hm.
  pose proof (mountTargets_single E store outputJSON name w0 w1 w2 b path Ho Hm) as Hloop.
  assert (Hreach : Reaches E [name] outputJSON w store w0
                     ([CallOpenBuilder name; CallMount b (BMountLabel E b)]
                      ++ (if outputJSON then [] else [Stdout (path ++ nl)]))%list
                     w2
                     (if outputJSON
                      then {| jsonMounts := Some [{| Container := ""; MountPoint := path |}];
                              lastError := None |}
                      else locals0)).
  { unfold Reaches. repeat split; assumption. }
  rewrite (mountCmd_reaches E [name] outputJSON w store w0 _ w2 _ Hreach).
  rewrite world_of_triple, trace_of_triple. split; [reflexivity|].
  rewrite stdout_of_app. destruct outputJSON.
  - unfold finish. cbn [jsonMounts].
    destruct (MarshalIndent E (Some [{| Container := ""; MountPoint := path |}]))
      as [data|err]; reflexivity.
  - reflexivity.
Qed.

(** C8: when the command is run on one target and run again in the world
    the first run left, and the builder gives the same path both times,
    the two runs write the same thing to standard output: the path on a
    line in text mode, the document of the one record with that path in
    JSON mode.  The record and the line hold the path as the builder
    returned it. *)
Theorem mount_twice_same_path (E : Env) (outputJSON : bool) (name : string)
  (w : World E) (store store' : Store E) (w0 w1 w2 w3 w4 w5 : World E)
  (b b' : Builder E) (path : string) :
  Cleared E [name] w store w0 ->
  openBuilder E store name w0 = (inl b, w1) ->
  Mount E b (BMountLabel E b) w1 = (inl path, w2) ->
  Cleared E [name] w2 store' w3 ->
  openBuilder E store' name w3 = (inl b', w4) ->
  Mount E b' (BMountLabel E b') w4 = (inl path, w5) ->
  world_of (mountCmd E [name] outputJSON w) = w2
  /\ stdout_of (trace_of (mountCmd E [name] outputJSON w2))
     = stdout_of (trace_of (mountCmd E [name] outputJSON w))
  /\ stdout_of (trace_of (mountCmd E [name] outputJSON w))
     = (if outputJSON
        then match MarshalIndent E (Some [{| Container := ""; MountPoint := path |}]) with
             | inl data => [data ++ nl]
             | inr _ => []
             end
        else [path ++ nl])
  /\ MountPoint (resultOf 1 name path) = path
  /\ lineOf 1 name path = path ++ nl.
Proof.
  intros Hclr Ho Hm Hclr' Ho' Hm'.
  destruct (mountCmd_single E outputJSON name w store w0 w1 w2 b path Hclr Ho Hm)
    as (Hw & Hout).
  destruct (mountCmd_single E outputJSON name w2 store' w3 w4 w5 b' path Hclr' Ho' Hm')
    as (_ & Hout').
  split; [exact Hw|]. split; [rewrite Hout, Hout'; reflexivity|].
  split; [exact Hout|]. split; reflexivity.
Qed.

(** The container B mounted twice in a row, in text mode: the first run
    leaves a store in which B is mounted, the second run starts there. *)
Lemma mount_twice_same_path_witness :
  world_of (mountCmd rootEnv ["B"] false [tb "B" Unmounted]) = [tb "B" IsMounted]
  /\ stdout_of (trace_of (mountCmd rootEnv ["B"] false [tb "B" IsMounted]))
     = stdout_of (trace_of (mountCmd rootEnv ["B"] false [tb "B" Unmounted]))
  /\ stdout_of (trace_of (mountCmd rootEnv ["B"] false [tb "B" Unmounted]))
     = ["/mnt/B" ++ nl].
Proof.
  pose proof (mount_twice_same_path rootEnv false "B" [tb "B" Unmounted]
                "overlay" "overlay"
                [tb "B" Unmounted] [tb "B" Unmounted] [tb "B" IsMounted]
                [tb "B" IsMounted] [tb "B" IsMounted] [tb "B" IsMounted]
                (tb "B" Unmounted) (tb "B" Unmounted) "/mnt/B") as H.
  destruct H as (Hw & Hsame & Hout & _).
  - unfold Cleared. repeat split; reflexivity.
  - reflexivity.
  - reflexivity.
  - unfold Cleared. repeat split; reflexivity.
  - reflexivity.
  - reflexivity.
  - split; [exact Hw|]. split; [exact Hsame | exact Hout].
Defined.

(** ** The two output modes and standard error *)

Lemma silent_pendingLine (E : Env) (l : Locals) :
  silent (@pendingLine E l) = pendingLine l.
Proof.
  unfold pendingLine. destruct (lastError l); reflexivity.
Qed.

Lemma pendingLine_ext (E : Env) (l l' : Locals) :
  lastError l = lastError l' -> @pendingLine E l = pendingLine l'.
Proof.
  intros H. unfold pendingLine. rewrite H. reflexivity.
Qed.

Lemma stderr_of_silent (E : Env) (t : list (Event E)) :
  stderr_of (silent t) = stderr_of t.
Proof.
  induction t as [|e t IH]; [reflexivity|].
  unfold silent in *. destruct e; cbn; rewrite ?IH; reflexivity.
Qed.

Lemma stdout_of_silent (E : Env) (t : list (Event E)) :
  stdout_of (silent t) = [].
Proof.
  induction t as [|e t IH]; [reflexivity|].
  destruct e; cbn; exact IH.
Qed.

(** The loop in JSON mode does what the loop in text mode does, the lines
    on standard output left out: the same calls, the same diagnostics at
    the same places, the same world and the same pending failure. *)
Lemma mountTargets_modes (E : Env) (store : Store E) (n : nat) (args : list string) :
  forall (lj lt : Locals) (w : World E),
    lastError lj = lastError lt ->
    let rj := mountTargets E store n true args lj w in
    let rt := mountTargets E store n false args lt w in
    trace_of rj = silent (trace_of rt)
    /\ world_of rj = world_of rt
    /\ lastError (value_of rj) = lastError (value_of rt).
Proof.
  induction args as [|name rest IH]; intros lj lt w Hl rj rt; subst rj rt.
  - repeat split. exact Hl.
  - rewrite !mountTargets_step.
    rewrite !trace_of_triple, !world_of_triple, !value_of_triple.
    destruct (openBuilder E store name w) as [[b|err] w1] eqn:Ho.
    + destruct (Mount E b (BMountLabel E b) w1) as [[path|err] w2] eqn:Hm.
      * rewrite (mountOne_mounted E store n true name lj w w1 w2 b path Ho Hm).
        rewrite (mountOne_mounted E store n false name lt w w1 w2 b path Ho Hm).
        rewrite !trace_of_triple, !world_of_triple, !value_of_triple.
        destruct (IH {| jsonMounts := append (jsonMounts lj) (resultOf n name path);
                        lastError := lastError lj |} lt w2 Hl) as (H1 & H2 & H3).
        rewrite silent_app. cbn [silent filter is_stdout negb app].
        rewrite H1. repeat split; assumption.
      * rewrite (mountOne_unmounted E store n true name lj w w1 w2 b err Ho Hm).
        rewrite (mountOne_unmounted E store n false name lt w w1 w2 b err Ho Hm).
        rewrite !trace_of_triple, !world_of_triple, !value_of_triple.
        destruct (IH {| jsonMounts := jsonMounts lj;
                        lastError := Some (mountFailure E name b err) |}
                     {| jsonMounts := jsonMounts lt;
                        lastError := Some (mountFailure E name b err) |}
                     w2 eq_refl) as (H1 & H2 & H3).
        rewrite silent_app. cbn [silent filter is_stdout negb].
        change (filter (fun e => negb (is_stdout e)) (pendingLine lt))
          with (silent (@pendingLine E lt)).
        rewrite silent_pendingLine, (pendingLine_ext E lj lt Hl), H1.
        repeat split; assumption.
    + rewrite (mountOne_unresolved E store n true name lj w w1 err Ho).
      rewrite (mountOne_unresolved E store n false name lt w w1 err Ho).
      rewrite !trace_of_triple, !world_of_triple, !value_of_triple.
      destruct (IH {| jsonMounts := jsonMounts lj;
                      lastError := Some (readFailure E name err) |}
                   {| jsonMounts := jsonMounts lt;
                      lastError := Some (readFailure E name err) |}
                   w1 eq_refl) as (H1 & H2 & H3).
      rewrite silent_app. cbn [silent filter is_stdout negb].
      change (filter (fun e => negb (is_stdout e)) (pendingLine lt))
        with (silent (@pendingLine E lt)).
      rewrite silent_pendingLine, (pendingLine_ext E lj lt Hl), H1.
      repeat split; assumption.
Qed.

(** C9: in JSON mode the loop over the targets leaves the trace of text
    mode without the lines of standard output: every diagnostic is on
    standard error at the place it has in text mode, right after the
    calls of the turn that replaces the failure, and the loop itself
    writes nothing to standard output.  The command then adds the end,
    which writes nothing to standard error: the diagnostics all come
    before the document. *)
Theorem json_diagnostics_incremental (E : Env) (args : list string)
  (w : World E) (store : Store E) (w0 : World E) :
  Cleared E args w store w0 ->
  args <> [] ->
  let rj := mountTargets E store (length args) true args locals0 w0 in
  let rt := mountTargets E store (length args) false args locals0 w0 in
  trace_of rj = silent (trace_of rt)
  /\ stdout_of (trace_of rj) = []
  /\ stderr_of (trace_of rj) = stderr_of (trace_of rt)
  /\ trace_of (mountCmd E args true w)
     = (trace_of rj ++ trace_of (finish E true (value_of rj) (world_of rj)))%list
  /\ stderr_of (trace_of (finish E true (value_of rj) (world_of rj))) = []
  /\ forall (name : string) (l : Locals) (w1 : World E),
       let r := mountOne E store (length args) true name l w1 in
       (lastError (value_of r) = lastError l /\ stderr_of (trace_of r) = [])
       \/ exists calls f,
            trace_of r = (calls ++ pendingLine l)%list
            /\ writes calls = []
            /\ lastError (value_of r) = Some f.
Proof.
  intros Hclr Hne rj rt.
  destruct (mountTargets_modes E store (length args) args locals0 locals0 w0 eq_refl)
    as (Htr & _ & _).
  fold rj rt in Htr.
  split; [exact Htr|]. split; [rewrite Htr; apply stdout_of_silent|].
  split; [rewrite Htr; apply stderr_of_silent|].
  split; [|split].
  - destruct Hclr as (Hv & Hs & Hg).
    assert (Hreach : Reaches E args true w store w0
                       (trace_of rj) (world_of rj) (value_of rj)).
    { unfold Reaches. split; [exact Hv|]. split; [exact Hs|].
      destruct args as [|name rest]; [congruence|].
      split; [exact Hg | apply run_triple]. }
    rewrite (mountCmd_reaches E args true w store w0 _ _ _ Hreach).
    apply trace_of_triple.
  - apply (finish_quiet E true (value_of rj) (world_of rj)).
  - intros name l w1 r.
    destruct (mountOne_policy E store (length args) true name l w1)
      as [Hsame | (calls & f & H1 & H2 & H3 & _)].
    + left. exact Hsame.
    + right. exists calls, f. repeat split; assumption.
Qed.

(** The batch A, B, C in JSON mode: the diagnostic of A comes before the
    document. *)
Lemma json_diagnostics_incremental_witness :
  trace_of (mountTargets rootEnv "overlay" 3 true ["A"; "B"; "C"] locals0 [])
  = silent (trace_of (mountTargets rootEnv "overlay" 3 false ["A"; "B"; "C"] locals0 []))
  /\ stderr_of (trace_of (mountTargets rootEnv "overlay" 3 true ["A"; "B"; "C"] locals0 []))
     = [diagnostic (readFailure rootEnv "A" (Errorf "container not known"))].
Proof.
  pose proof (json_diagnostics_incremental rootEnv ["A"; "B"; "C"] [] "overlay" [])
    as H.
  destruct H as (Htr & _ & Herr & _).
  - unfold Cleared. repeat split; reflexivity.
  - discriminate.
  - split; [exact Htr|]. cbn [length] in Herr. rewrite Herr. reflexivity.
Defined.

(** ** Where the identifier of a result comes from *)

(** C10: with more than one target, the identifier of every result, in the
    record of JSON mode and on the line of text mode, is the argument as
    it was given, whatever the container of the builder it resolved to;
    in the listing branch it is the container of the builder, and the
    path is the mount point the builder holds. *)
Theorem identifier_is_argument (E : Env) (outputJSON : bool)
  (args : list string) (w : World E) (store : Store E) (w0 : World E)
  (t : list (Event E)) (w' : World E) (l : Locals)
  (wL : World E) (storeL : Store E) (w0L : World E)
  (tL : list (Event E)) (w'L : World E) (lL : Locals) :
  Reaches E args outputJSON w store w0 t w' l ->
  (1 < length args)%nat ->
  Reaches E [] outputJSON wL storeL w0L tL w'L lL ->
  (elems (jsonMounts l)
   = (if outputJSON
      then map (fun p => {| Container := fst p; MountPoint := snd p |})
             (successes E store args w0)
      else [])
   /\ stdout_of t
      = (if outputJSON then []
         else map (fun p => fst p ++ " " ++ snd p ++ nl) (successes E store args w0))
   /\ forall p, In p (successes E store args w0) -> In (fst p) args)
  /\ exists builders w1,
       openBuilders E storeL w0L = (inl builders, w1)
       /\ elems (jsonMounts lL)
          = (if outputJSON
             then map (fun b => {| Container := BContainer E b;
                                   MountPoint := BMountPoint E b |})
                    (mountedBuilders E builders w1)
             else [])
       /\ stdout_of tL
          = (if outputJSON then []
             else map (fun b => BContainer E b ++ " " ++ BMountPoint E b ++ nl)
                    (mountedBuilders E builders w1)).
Proof.
  intros Hreach Hlen HreachL.
  pose proof (results_of_run E args outputJSON w store w0 t w' l Hreach) as Hres.
  pose proof (results_of_run E [] outputJSON wL storeL w0L tL w'L lL HreachL) as HresL.
  split; [|exact HresL].
  destruct args as [|a [|a' rest]]; [cbn in Hlen; lia | cbn in Hlen; lia |].
  destruct Hres as (Hj & Ht). cbn [length] in Hj, Ht.
  unfold resultOf, lineOf in Hj, Ht. cbn [Nat.ltb Nat.leb] in Hj, Ht.
  split; [exact Hj|]. split; [exact Ht|].
  intros p Hin. exact (successes_incl E store _ w0 p Hin).
Qed.

(** A second name of the container [real] next to B, and the listing of a
    store that holds [real], mounted: the line of the first run says
    alias, the line of the listing says real. *)
Lemma identifier_is_argument_witness :
  test_openBuilder "alias" = inl (tb "real" Unmounted)
  /\ successes rootEnv "overlay" ["alias"; "B"] []
     = [("alias", "/mnt/real"); ("B", "/mnt/B")]
  /\ stdout_of (trace_of (mountCmd rootEnv ["alias"; "B"] false []))
     = map (fun p => fst p ++ " " ++ snd p ++ nl)
         (successes rootEnv "overlay" ["alias"; "B"] [])
  /\ exists builders w1,
       openBuilders rootEnv "overlay" [tb "real" IsMounted] = (inl builders, w1)
       /\ stdout_of (trace_of (mountCmd rootEnv [] false [tb "real" IsMounted]))
          = map (fun b => BContainer rootEnv b ++ " " ++ BMountPoint rootEnv b ++ nl)
              (mountedBuilders rootEnv builders w1).
Proof.
  pose proof (identifier_is_argument rootEnv false
                ["alias"; "B"] [] "overlay" []
                (trace_of (mountCmd rootEnv ["alias"; "B"] false []))
                [] locals0
                [tb "real" IsMounted] "overlay" [tb "real" IsMounted]
                (trace_of (mountCmd rootEnv [] false [tb "real" IsMounted]))
                [tb "real" IsMounted] locals0) as H.
  destruct H as ((_ & Hout & _) & (builders & w1 & Ho & _ & HoutL)).
  - unfold Reaches. repeat split; reflexivity.
  - cbn. lia.
  - unfold Reaches. split; [reflexivity|]. split; [reflexivity|].
    exists [tb "real" IsMounted], [tb "real" IsMounted],
           [@CallMounted rootEnv (tb "real" IsMounted); Stdout ("real /mnt/real" ++ nl)].
    repeat split; reflexivity.
  - split; [reflexivity|]. split; [reflexivity|]. split; [exact Hout|].
    exists builders, w1. split; [exact Ho | exact HoutL].
Defined.

(** * More of the command *)

(** ** Who gets past the rootless guard *)

Lemma rootless_false (E : Env) (store : Store E) (w : World E) :
  Geteuid E w = 0%Z \/ GraphDriverName E store = "vfs" ->
  rootless E store w = false.
Proof.
  intros [Hu | Hd]; unfold rootless.
  - rewrite Hu. reflexivity.
  - rewrite Hd, String.eqb_refl. apply andb_false_r.
Qed.

(** A turn begins with the resolution of its argument. *)
Lemma mountOne_head (E : Env) (store : Store E) (n : nat) (outputJSON : bool)
  (name : string) (l : Locals) (w : World E) :
  exists t, trace_of (mountOne E store n outputJSON name l w) = CallOpenBuilder name :: t.
Proof.
  destruct (openBuilder E store name w) as [[b|err] w1] eqn:Ho.
  - destruct (Mount E b (BMountLabel E b) w1) as [[path|err] w2] eqn:Hm.
    + rewrite (mountOne_mounted E store n outputJSON name l w w1 w2 b path Ho Hm).
      destruct outputJSON; eexists; reflexivity.
    + rewrite (mountOne_unmounted E store n outputJSON name l w w1 w2 b err Ho Hm).
      eexists; reflexivity.
  - rewrite (mountOne_unresolved E store n outputJSON name l w w1 err Ho).
    eexists; reflexivity.
Qed.

(** X1: root with any graph driver, and any user with the vfs driver, get past
    the guard of line 76: the command goes on to resolve its first
    target, and what it returns is what the loop and the end return. *)
Theorem guard_lets_through (E : Env) (name : string) (rest : list string)
  (outputJSON : bool) (w : World E) (store : Store E) (w1 : World E) :
  VerifyFlagsArgsOrder E (name :: rest) = None ->
  getStore E w = (inl store, w1) ->
  Geteuid E w1 = 0%Z \/ GraphDriverName E store = "vfs" ->
  (exists t, trace_of (mountCmd E (name :: rest) outputJSON w)
             = CallOpenBuilder name :: t)
  /\ mountCmd E (name :: rest) outputJSON w
     = bind (mountTargets E store (length (name :: rest)) outputJSON
               (name :: rest) locals0)
            (finish E outputJSON) w1.
Proof.
  intros Hv Hs Hg.
  assert (Hrun : mountCmd E (name :: rest) outputJSON w
                 = bind (mountTargets E store (length (name :: rest)) outputJSON
                           (name :: rest) locals0)
                        (finish E outputJSON) w1).
  { rewrite (mountCmd_branch E (name :: rest) outputJSON w store w1 Hv Hs).
    change (0 <? length (name :: rest))%nat with true. cbv iota.
    unfold mountArgs. rewrite (rootless_false E store w1 Hg). reflexivity. }
  split; [|exact Hrun].
  rewrite Hrun. unfold bind.
  rewrite mountTargets_step.
  destruct (mountOne_head E store (length (name :: rest)) outputJSON name locals0 w1)
    as (t1 & Ht1).
  rewrite Ht1.
  match goal with
  | |- context [finish E outputJSON ?l ?w'] =>
      destruct (finish E outputJSON l w') as [[t2 w2] r]
  end.
  eexists. rewrite trace_of_triple. cbn [app]. reflexivity.
Qed.

(** Root with overlay, and an unprivileged user with vfs. *)
Lemma guard_lets_through_witness :
  (exists t, trace_of (mountCmd rootEnv ["B"] false []) = CallOpenBuilder "B" :: t)
  /\ (exists t, trace_of (mountCmd vfsEnv ["B"; "C"] true []) = CallOpenBuilder "B" :: t).
Proof.
  split.
  - refine (proj1 (guard_lets_through rootEnv "B" [] false [] "overlay" [] _ _ _)).
    + reflexivity.
    + reflexivity.
    + left. reflexivity.
  - refine (proj1 (guard_lets_through vfsEnv "B" ["C"] true [] "vfs" [] _ _ _)).
    + reflexivity.
    + reflexivity.
    + right. reflexivity.
Defined.

(** ** Every target is tried, once, in the order of the request *)

Lemma opened_app (E : Env) (t1 t2 : list (Event E)) :
  opened (t1 ++ t2) = (opened t1 ++ opened t2)%list.
Proof.
  induction t1 as [|e t1 IH]; [reflexivity|].
  destruct e; simpl; rewrite IH; reflexivity.
Qed.

Lemma opened_pendingLine (E : Env) (l : Locals) : opened (@pendingLine E l) = [].
Proof.
  unfold pendingLine. destruct (lastError l); reflexivity.
Qed.

Lemma mountOne_opened (E : Env) (store : Store E) (n : nat) (outputJSON : bool)
  (name : string) (l : Locals) (w : World E) :
  opened (trace_of (mountOne E store n outputJSON name l w)) = [name].
Proof.
  destruct (openBuilder E store name w) as [[b|err] w1] eqn:Ho.
  - destruct (Mount E b (BMountLabel E b) w1) as [[path|err] w2] eqn:Hm.
    + rewrite (mountOne_mounted E store n outputJSON name l w w1 w2 b path Ho Hm).
      destruct outputJSON; reflexivity.
    + rewrite (mountOne_unmounted E store n outputJSON name l w w1 w2 b err Ho Hm).
      rewrite trace_of_triple. cbn [opened]. rewrite opened_pendingLine. reflexivity.
  - rewrite (mountOne_unresolved E store n outputJSON name l w w1 err Ho).
    rewrite trace_of_triple. cbn [opened]. rewrite opened_pendingLine. reflexivity.
Qed.

Lemma mountTargets_opened (E : Env) (store : Store E) (n : nat) (outputJSON : bool)
  (args : list string) :
  forall (l : Locals) (w : World E),
    opened (trace_of (mountTargets E store n outputJSON args l w)) = args.
Proof.
  induction args as [|name rest IH]; intros l w; [reflexivity|].
  rewrite mountTargets_step, trace_of_triple, opened_app.
  rewrite mountOne_opened, IH. reflexivity.
Qed.

Lemma opened_finish (E : Env) (outputJSON : bool) (l : Locals) (w : World E) :
  opened (trace_of (finish E outputJSON l w)) = [].
Proof.
  unfold finish. destruct outputJSON; [|reflexivity].
  destruct (MarshalIndent E (jsonMounts l)); reflexivity.
Qed.

(** A run with targets that the guard lets through, as a run that gets to
    its last lines. *)
Lemma cleared_reaches (E : Env) (args : list string) (outputJSON : bool)
  (w : World E) (store : Store E) (w0 : World E) :
  Cleared E args w store w0 ->
  args <> [] ->
  let r := mountTargets E store (length args) outputJSON args locals0 w0 in
  Reaches E args outputJSON w store w0 (trace_of r) (world_of r) (value_of r).
Proof.
  intros (Hv & Hs & Hg) Hne r. unfold Reaches.
  split; [exact Hv|]. split; [exact Hs|].
  destruct args as [|name rest]; [congruence|].
  split; [exact Hg | apply run_triple].
Qed.

(** X2: once the checks have passed, the names handed to the store for
    resolution are the targets of the request, each one once and in the
    order given, whichever of them fail and whatever the output mode: a
    failure never ends the loop and a name given twice is resolved twice. *)
Theorem every_target_resolved_once (E : Env) (args : list string)
  (outputJSON : bool) (w : World E) (store : Store E) (w0 : World E) :
  Cleared E args w store w0 ->
  args <> [] ->
  opened (trace_of (mountCmd E args outputJSON w)) = args.
Proof.
  intros Hclr Hne.
  pose proof (cleared_reaches E args outputJSON w store w0 Hclr Hne) as Hreach.
  cbv zeta in Hreach.
  rewrite (mountCmd_reaches E args outputJSON w store w0 _ _ _ Hreach).
  rewrite trace_of_triple, opened_app, mountTargets_opened, opened_finish.
  apply app_nil_r.
Qed.

(** A request that names B twice around a name that does not resolve. *)
Lemma every_target_resolved_once_witness :
  opened (trace_of (mountCmd rootEnv ["B"; "A"; "B"] true [])) = ["B"; "A"; "B"].
Proof.
  apply (every_target_resolved_once rootEnv ["B"; "A"; "B"] true [] "overlay" []).
  - unfold Cleared. repeat split; reflexivity.
  - discriminate.
Defined.

(** ** What the two branches never do *)

Lemma listMounted_no_attempt (E : Env) (outputJSON : bool) (builders : list (Builder E)) :
  forall (l : Locals) (w : World E),
    filter is_attempt (trace_of (listMounted E outputJSON builders l w)) = []
    /\ opened (trace_of (listMounted E outputJSON builders l w)) = [].
Proof.
  induction builders as [|b rest IH]; intros l w; [split; reflexivity|].
  rewrite listMounted_step.
  destruct (Mounted E b w) as [[mounted|err] w1]; [|split; reflexivity].
  destruct mounted; cbv zeta; rewrite trace_of_triple.
  - destruct outputJSON; cbn [app filter is_attempt opened]; apply IH.
  - cbn [filter is_attempt opened]. apply IH.
Qed.

Lemma filter_is_listing_pendingLine (E : Env) (l : Locals) :
  filter is_listing (@pendingLine E l) = [].
Proof.
  unfold pendingLine. destruct (lastError l); reflexivity.
Qed.

Lemma mountTargets_no_listing (E : Env) (store : Store E) (n : nat)
  (outputJSON : bool) (args : list string) :
  forall (l : Locals) (w : World E),
    filter is_listing (trace_of (mountTargets E store n outputJSON args l w)) = [].
Proof.
  induction args as [|name rest IH]; intros l w; [reflexivity|].
  rewrite mountTargets_step, trace_of_triple, filter_app, IH, app_nil_r.
  destruct (openBuilder E store name w) as [[b|err] w1] eqn:Ho.
  - destruct (Mount E b (BMountLabel E b) w1) as [[path|err] w2] eqn:Hm.
    + rewrite (mountOne_mounted E store n outputJSON name l w w1 w2 b path Ho Hm).
      destruct outputJSON; reflexivity.
    + rewrite (mountOne_unmounted E store n outputJSON name l w w1 w2 b err Ho Hm).
      rewrite trace_of_triple. cbn [filter is_listing].
      apply filter_is_listing_pendingLine.
  - rewrite (mountOne_unresolved E store n outputJSON name l w w1 err Ho).
    rewrite trace_of_triple. cbn [filter is_listing].
    apply filter_is_listing_pendingLine.
Qed.

Lemma finish_no_call (E : Env) (outputJSON : bool) (l : Locals) (w : World E) :
  filter is_attempt (trace_of (finish E outputJSON l w)) = []
  /\ filter is_listing (trace_of (finish E outputJSON l w)) = [].
Proof.
  unfold finish. destruct outputJSON; [|split; reflexivity].
  destruct (MarshalIndent E (jsonMounts l)); split; reflexivity.
Qed.

(** The command without targets, whatever the collaborators answer. *)
Lemma branches_do_not_mix_listing (E : Env) (outputJSON : bool) (w : World E) :
  filter is_attempt (trace_of (mountCmd E [] outputJSON w)) = []
  /\ stderr_of (trace_of (mountCmd E [] outputJSON w)) = [].
Proof.
  destruct (VerifyFlagsArgsOrder E []) as [err|] eqn:Hv.
  { rewrite !(mountCmd_bad_args E [] outputJSON w err Hv). split; reflexivity. }
  destruct (getStore E w) as [[store|err] w0] eqn:Hs.
  2:{ rewrite !(mountCmd_no_store E [] outputJSON w w0 err Hv Hs). split; reflexivity. }
  rewrite !(mountCmd_branch E [] outputJSON w store w0 Hv Hs).
  clear Hv Hs.
  cbn [length Nat.ltb Nat.leb]. unfold mountAll, bind, call.
  destruct (openBuilders E store w0) as [[builders|err] w1]; [|split; reflexivity].
  pose proof (listMounted_no_attempt E outputJSON builders locals0 w1) as (Hatt & _).
  pose proof (listMounted_summary E outputJSON builders locals0 w1) as (_ & Herr & _).
  destruct (listMounted E outputJSON builders locals0 w1) as [[t1 w2] [l|err]].
  + pose proof (finish_no_call E outputJSON l w2) as (Hf & _).
    pose proof (finish_quiet E outputJSON l w2) as (_ & Hq & _).
    destruct (finish E outputJSON l w2) as [[t2 w3] r].
    rewrite trace_of_triple in Hatt, Herr, Hf, Hq. cbn [app].
    rewrite !trace_of_triple. cbn [filter is_attempt stderr_of].
    rewrite filter_app, stderr_of_app, Hatt, Herr, Hf, Hq.
    split; reflexivity.
  + rewrite trace_of_triple in Hatt, Herr. cbn [ret app].
    rewrite !trace_of_triple, !app_nil_r. cbn [filter is_attempt stderr_of].
    rewrite Hatt, Herr. split; reflexivity.
Qed.

(** X3: whatever the collaborators answer, a command without targets never
    resolves a name, never mounts anything and never writes to standard
    error; a command with targets never enumerates the store and never
    asks a builder whether it is mounted. *)
Theorem branches_do_not_mix (E : Env) (args : list string) (outputJSON : bool)
  (w : World E) :
  match args with
  | [] =>
      filter is_attempt (trace_of (mountCmd E args outputJSON w)) = []
      /\ stderr_of (trace_of (mountCmd E args outputJSON w)) = []
  | _ :: _ =>
      filter is_listing (trace_of (mountCmd E args outputJSON w)) = []
  end.
Proof.
  destruct args as [|name rest]; [apply branches_do_not_mix_listing|].
  destruct (VerifyFlagsArgsOrder E (name :: rest)) as [err|] eqn:Hv.
  { rewrite (mountCmd_bad_args E _ outputJSON w err Hv). reflexivity. }
  destruct (getStore E w) as [[store|err] w0] eqn:Hs.
  2:{ rewrite (mountCmd_no_store E _ outputJSON w w0 err Hv Hs). reflexivity. }
  rewrite (mountCmd_branch E _ outputJSON w store w0 Hv Hs).
  change (0 <? length (name :: rest))%nat with true. cbv iota.
  unfold mountArgs. destruct (rootless E store w0); [reflexivity|].
  unfold bind.
  pose proof (mountTargets_no_listing E store (length (name :: rest)) outputJSON
                (name :: rest) locals0 w0) as Hl.
  destruct (mountTargets E store (length (name :: rest)) outputJSON
              (name :: rest) locals0 w0) as [[t1 w1] l].
  pose proof (finish_no_call E outputJSON l w1) as (_ & Hf).
  destruct (finish E outputJSON l w1) as [[t2 w2] r].
  rewrite trace_of_triple in Hl, Hf.
  rewrite trace_of_triple, filter_app, Hl, Hf. reflexivity.
Qed.

(** ** The label of a mount *)





(** ** Every target ends as a result or as a failure *)

Lemma successes_failures_length (E : Env) (store : Store E) (args : list string) :
  forall w : World E,
    length (successes E store args w) + length (failures E store args w)
    = length args.
Proof.
  induction args as [|name rest IH]; intros w; [reflexivity|].
  cbn [successes failures].
  destruct (openBuilder E store name w) as [[b|err] w1].
  - destruct (Mount E b (BMountLabel E b) w1) as [[path|err] w2];
      cbn [length]; specialize (IH w2); lia.
  - cbn [length]. specialize (IH w1). lia.
Qed.

(** X5: once the checks have passed, every target of the request is accounted
    for exactly once.  In text mode: by a line on standard output, by a
    line on standard error, or by the error the command returns.  In JSON
    mode the records that the loop stores take the place of the lines on
    standard output. *)
Theorem every_target_accounted_for (E : Env) (args : list string)
  (w : World E) (store : Store E) (w0 : World E) :
  Cleared E args w store w0 ->
  args <> [] ->
  length (stdout_of (trace_of (mountCmd E args false w)))
  + length (stderr_of (trace_of (mountCmd E args false w)))
  + length (pending (value_of (mountCmd E args false w)))
  = length args
  /\ let r := mountTargets E store (length args) true args locals0 w0 in
     length (elems (jsonMounts (value_of r)))
     + length (stderr_of (trace_of r))
     + length (pending (lastError (value_of r)))
     = length args.
Proof.
  intros Hclr Hne.
  assert (Hloop : forall j,
            let r := mountTargets E store (length args) j args locals0 w0 in
            (if j then length (elems (jsonMounts (value_of r)))
             else length (stdout_of (trace_of r)))
            + length (stderr_of (trace_of r))
            + length (pending (lastError (value_of r)))
            = length args).
  { intros j r.
    pose proof (mountTargets_summary E store (length args) j args locals0 w0)
      as (H1 & H2 & _ & H4).
    fold r in H1, H2, H4.
    pose proof (successes_failures_length E store args w0) as Hlen.
    apply (f_equal (@length string)) in H4.
    rewrite length_app, !length_map in H4. cbn [lastError locals0 pending app] in H4.
    destruct j.
    - rewrite H1. cbn [jsonMounts locals0 elems app]. rewrite length_map. lia.
    - rewrite H2, length_map. lia. }
  split; [|exact (Hloop true)].
  pose proof (cleared_reaches E args false w store w0 Hclr Hne) as Hreach.
  cbv zeta in Hreach.
  rewrite (mountCmd_reaches E args false w store w0 _ _ _ Hreach).
  rewrite trace_of_triple, value_of_triple, finish_text.
  rewrite trace_of_triple, value_of_triple, app_nil_r.
  exact (Hloop false).
Qed.

(** Three targets in text mode: a line for B, a diagnostic for A, and the
    failure of C returned. *)
Lemma every_target_accounted_for_witness :
  length (stdout_of (trace_of (mountCmd rootEnv ["A"; "B"; "C"] false [])))
  + length (stderr_of (trace_of (mountCmd rootEnv ["A"; "B"; "C"] false [])))
  + length (pending (value_of (mountCmd rootEnv ["A"; "B"; "C"] false [])))
  = length ["A"; "B"; "C"].
Proof.
  refine (proj1 (every_target_accounted_for rootEnv ["A"; "B"; "C"] [] "overlay" []
                   _ _)).
  - unfold Cleared. repeat split; reflexivity.
  - discriminate.
Defined.

(** ** When the command returns no error *)

Lemma last_Some_None (A : Type) (l : list A) :
  last (map Some l) None = None <-> l = [].
Proof.
  split; [|intros H; subst l; reflexivity].
  destruct l as [|x l]; [reflexivity|]. intros H. exfalso.
  cbn [map] in H. rewrite last_cons_default in H.
  revert x H. induction l as [|y l IH]; intros x H; [discriminate H|].
  cbn [map] in H. rewrite last_cons_default in H. exact (IH y H).
Qed.

(** X6: a command that gets to its last lines and can write its results
    returns no error exactly when no target failed: one target that does
    not resolve or does not mount is enough for an error to come back,
    wherever in the request it stands and however many others are
    mounted. *)
Theorem no_error_iff_no_failure (E : Env) (args : list string) (outputJSON : bool)
  (w : World E) (store : Store E) (w0 : World E)
  (t : list (Event E)) (w' : World E) (l : Locals) :
  Reaches E args outputJSON w store w0 t w' l ->
  Encodes E outputJSON l ->
  (value_of (mountCmd E args outputJSON w) = None
   <-> failures E store args w0 = []).
Proof.
  intros Hreach Henc.
  assert (Hval : value_of (mountCmd E args outputJSON w) = lastError l).
  { rewrite (mountCmd_reaches E args outputJSON w store w0 t w' l Hreach).
    rewrite value_of_triple.
    destruct Henc as [Hj | (data & Hd)].
    - subst outputJSON. reflexivity.
    - destruct outputJSON; [|reflexivity].
      rewrite (finish_json E l w' data Hd). reflexivity. }
  rewrite Hval. destruct Hreach as (_ & _ & Hrun).
  destruct args as [|name rest].
  - destruct Hrun as (builders & w1 & t' & _ & Hl & _).
    rewrite (listMounted_lastError E outputJSON builders locals0 w1 t' w' l Hl).
    split; reflexivity.
  - destruct Hrun as (_ & Hloop).
    pose proof (mountTargets_summary E store (length (name :: rest)) outputJSON
                  (name :: rest) locals0 w0) as (_ & _ & H3 & _).
    rewrite Hloop, value_of_triple in H3. rewrite H3.
    apply last_Some_None.
Qed.

(** A failure in the first of two targets, in text mode: an error comes
    back although the second target is mounted. *)
Lemma no_error_iff_no_failure_witness :
  (value_of (mountCmd rootEnv ["A"; "B"] false []) = None
   <-> failures rootEnv "overlay" ["A"; "B"] [] = [])
  /\ value_of (mountCmd rootEnv ["A"; "B"] false []) <> None.
Proof.
  split.
  - apply (no_error_iff_no_failure rootEnv ["A"; "B"] false [] "overlay" []
             [CallOpenBuilder "A";
              CallOpenBuilder "B"; @CallMount rootEnv (tb "B" Unmounted) "";
              Stdout ("B /mnt/B" ++ nl)]
             []
             {| jsonMounts := None;
                lastError := Some (readFailure rootEnv "A"
                                     (Errorf "container not known")) |}).
    + unfold Reaches. repeat split; reflexivity.
    + left. reflexivity.
  - discriminate.
Defined.

(** ** Standard output in JSON mode *)



(** The encoder of the Go library gives the empty array for an allocated
    slice without elements and for no other slice. *)
Lemma GoJSON_empty_array (enc : string -> string) (v : slice jsonMount) :
  GoJSON.MarshalIndent enc v = "[]" <-> v = Some [].
Proof.
  split; [|intros H; subst v; reflexivity].
  destruct v as [[|m ms]|]; intros H.
  - reflexivity.
  - cbn in H. discriminate H.
  - discriminate H.
Qed.

(** X8: with the encoder of the Go library, a command in JSON mode that gets
    to its last lines writes exactly one document: the token null when
    there is no result, and the encoding of the slice of the results, which
    has a first element, when there is one.  The empty array is never
    written. *)
Theorem json_document_is_null_or_results (E : Env) (enc : string -> string)
  (args : list string) (w : World E) (store : Store E) (w0 : World E)
  (t : list (Event E)) (w' : World E) (l : Locals) :
  GoEncoder E enc ->
  Reaches E args true w store w0 t w' l ->
  stdout_of (trace_of (mountCmd E args true w))
  = [GoJSON.MarshalIndent enc (jsonMounts l) ++ nl]
  /\ match elems (jsonMounts l) with
     | [] => jsonMounts l = None
             /\ GoJSON.MarshalIndent enc (jsonMounts l) = "null"
     | m :: ms => jsonMounts l = Some (m :: ms)
     end
  /\ GoJSON.MarshalIndent enc (jsonMounts l) <> "[]".
Proof.
  intros Henc Hreach.
  assert (Hshape : match elems (jsonMounts l) with
                   | [] => jsonMounts l = None
                   | m :: ms => jsonMounts l = Some (m :: ms)
                   end).
  { destruct (elems (jsonMounts l)) as [|m ms] eqn:He.
    - exact (no_result_is_nil E args true w store w0 t w' l Hreach He).
    - destruct (jsonMounts l) as [rs|]; [|discriminate He].
      cbn in He. subst rs. reflexivity. }
  split; [|split].
  - rewrite (mountCmd_reaches E args true w store w0 t w' l Hreach).
    rewrite trace_of_triple, stdout_of_app.
    rewrite (json_buffers E args w store w0 t w' l Hreach).
    rewrite (finish_json E l w' _ (Henc (jsonMounts l))). reflexivity.
  - destruct (elems (jsonMounts l)) as [|m ms]; [|exact Hshape].
    split; [exact Hshape|]. rewrite Hshape. reflexivity.
  - intros Hnull. apply GoJSON_empty_array in Hnull.
    rewrite Hnull in Hshape. cbn in Hshape. discriminate Hshape.
Qed.

(** Two targets of which one mounts, in JSON mode. *)
Lemma json_document_is_null_or_results_witness :
  stdout_of (trace_of (mountCmd rootEnv ["A"; "B"] true []))
  = [GoJSON.MarshalIndent quoted
       (Some [{| Container := "B"; MountPoint := "/mnt/B" |}]) ++ nl]
  /\ GoJSON.MarshalIndent quoted
       (Some [{| Container := "B"; MountPoint := "/mnt/B" |}]) <> "[]".
Proof.
  pose proof (json_document_is_null_or_results rootEnv quoted ["A"; "B"] []
                "overlay" []
                [CallOpenBuilder "A";
                 CallOpenBuilder "B"; @CallMount rootEnv (tb "B" Unmounted) ""]
                []
                {| jsonMounts := Some [{| Container := "B"; MountPoint := "/mnt/B" |}];
                   lastError := Some (readFailure rootEnv "A"
                                        (Errorf "container not known")) |}) as H.
  destruct H as (Hout & _ & Hne).
  - intros v. reflexivity.
  - unfold Reaches. repeat split; reflexivity.
  - split; [exact Hout | exact Hne].
Defined.

(** ** What the JSON flag changes, and what it does not *)

(** The listing loop in JSON mode does what it does in text mode, the
    lines on standard output left out, and ends the same way. *)
Lemma listMounted_modes (E : Env) (builders : list (Builder E)) :
  forall (lj lt : Locals) (w : World E),
    lastError lj = lastError lt ->
    let rj := listMounted E true builders lj w in
    let rt := listMounted E false builders lt w in
    trace_of rj = silent (trace_of rt)
    /\ world_of rj = world_of rt
    /\ match value_of rj, value_of rt with
       | inl l1, inl l2 => lastError l1 = lastError l2
       | inr e1, inr e2 => e1 = e2
       | _, _ => False
       end.
Proof.
  induction builders as [|b rest IH]; intros lj lt w Hl rj rt; subst rj rt.
  - repeat split. exact Hl.
  - rewrite !listMounted_step.
    destruct (Mounted E b w) as [[mounted|err] w1]; [|repeat split].
    destruct mounted; cbv zeta;
      rewrite !trace_of_triple, !world_of_triple, !value_of_triple.
    + destruct (IH {| jsonMounts := append (jsonMounts lj) (resultOfBuilder E b);
                      lastError := lastError lj |} lt w1 Hl) as (H1 & H2 & H3).
      cbn [app silent filter is_stdout negb]. rewrite H1.
      repeat split; assumption.
    + destruct (IH lj lt w1 Hl) as (H1 & H2 & H3).
      cbn [silent filter is_stdout negb]. rewrite H1.
      repeat split; assumption.
Qed.

Lemma silent_silent (E : Env) (t : list (Event E)) :
  silent (silent t) = silent t.
Proof.
  unfold silent. induction t as [|e t IH]; [reflexivity|].
  destruct e; cbn; rewrite ?IH; reflexivity.
Qed.

Lemma silent_cons_call (E : Env) (t : list (Event E)) :
  silent (CallOpenBuilders :: t) = CallOpenBuilders :: silent t.
Proof. reflexivity. Qed.

(** X9: with an encoder that does not fail, the JSON flag changes nothing but
    standard output: the calls to the store and to the builders, the
    lines on standard error, the world the command leaves and the error
    it returns are those of text mode. *)
Theorem json_flag_changes_only_stdout (E : Env) (args : list string)
  (w : World E) :
  EncoderTotal E ->
  silent (trace_of (mountCmd E args true w))
  = silent (trace_of (mountCmd E args false w))
  /\ world_of (mountCmd E args true w) = world_of (mountCmd E args false w)
  /\ value_of (mountCmd E args true w) = value_of (mountCmd E args false w).
Proof.
  intros Henc.
  assert (Hfin : forall l w1,
            finish E true l w1
            = (trace_of (finish E true l w1), w1, lastError l)
            /\ silent (trace_of (finish E true l w1)) = []).
  { intros l w1. destruct (Henc (jsonMounts l)) as (data & Hd).
    rewrite (finish_json E l w1 data Hd). split; reflexivity. }
  destruct (VerifyFlagsArgsOrder E args) as [err|] eqn:Hv.
  { rewrite !(mountCmd_bad_args E args _ w err Hv). repeat split. }
  destruct (getStore E w) as [[store|err] w0] eqn:Hs.
  2:{ rewrite !(mountCmd_no_store E args _ w w0 err Hv Hs). repeat split. }
  rewrite !(mountCmd_branch E args _ w store w0 Hv Hs). clear Hv Hs.
  destruct args as [|name rest].
  - cbn [length Nat.ltb Nat.leb]. unfold mountAll, bind, call.
    destruct (openBuilders E store w0) as [[builders|err] w1]; [|repeat split].
    destruct (listMounted_modes E builders locals0 locals0 w1 eq_refl)
      as (H1 & H2 & H3).
    destruct (listMounted E true builders locals0 w1) as [[tj wj] [lj|ej]];
      destruct (listMounted E false builders locals0 w1) as [[tt wt] [lt|et]];
      unfold trace_of, world_of, value_of in H1, H2, H3; cbn [fst snd] in H1, H2, H3;
      try contradiction; subst; cbv beta iota.
    + destruct (Hfin lj wt) as (Hf1 & Hf2). rewrite Hf1, finish_text.
      rewrite !trace_of_triple, !world_of_triple, !value_of_triple.
      cbn [app]. rewrite !silent_cons_call, !silent_app, Hf2.
      cbn [silent filter]. rewrite !app_nil_r, silent_silent.
      repeat split. exact H3.
    + cbn [ret]. cbv beta iota.
      rewrite !trace_of_triple, !world_of_triple, !value_of_triple.
      cbn [app]. rewrite !app_nil_r, !silent_cons_call, silent_silent.
      repeat split.
  - change (0 <? length (name :: rest))%nat with true. cbv iota.
    unfold mountArgs. destruct (rootless E store w0); [repeat split|].
    unfold bind.
    destruct (mountTargets_modes E store (length (name :: rest)) (name :: rest)
                locals0 locals0 w0 eq_refl) as (H1 & H2 & H3).
    destruct (mountTargets E store (length (name :: rest)) true
                (name :: rest) locals0 w0) as [[tj wj] lj].
    destruct (mountTargets E store (length (name :: rest)) false
                (name :: rest) locals0 w0) as [[tt wt] lt].
    unfold trace_of, world_of, value_of in H1, H2, H3; cbn [fst snd] in H1, H2, H3.
    subst tj wj. cbv beta iota.
    destruct (Hfin lj wt) as (Hf1 & Hf2). rewrite Hf1, finish_text.
    rewrite !trace_of_triple, !world_of_triple, !value_of_triple.
    rewrite !silent_app, Hf2. cbn [silent filter]. rewrite !app_nil_r, silent_silent.
    repeat split. exact H3.
Qed.

(** The batch A, B, C as root, with the encoder of the Go library. *)
Lemma json_flag_changes_only_stdout_witness :
  silent (trace_of (mountCmd rootEnv ["A"; "B"; "C"] true []))
  = silent (trace_of (mountCmd rootEnv ["A"; "B"; "C"] false []))
  /\ world_of (mountCmd rootEnv ["A"; "B"; "C"] true [])
     = world_of (mountCmd rootEnv ["A"; "B"; "C"] false [])
  /\ value_of (mountCmd rootEnv ["A"; "B"; "C"] true [])
     = value_of (mountCmd rootEnv ["A"; "B"; "C"] false []).
Proof.
  apply (json_flag_changes_only_stdout rootEnv ["A"; "B"; "C"] []).
  intros v. eexists. reflexivity.
Defined.

(** ** A request in two parts *)

Lemma bind_assoc (E : Env) (A B C : Type) (m : M E A) (f : A -> M E B)
  (g : B -> M E C) (w : World E) :
  bind (bind m f) g w = bind m (fun a => bind (f a) g) w.
Proof.
  unfold bind. destruct (m w) as [[t1 w1] a].
  destruct (f a w1) as [[t2 w2] b]. destruct (g b w2) as [[t3 w3] c].
  rewrite app_assoc. reflexivity.
Qed.

Lemma bind_ext (E : Env) (A B : Type) (m : M E A) (f g : A -> M E B) (w : World E) :
  (forall a w', f a w' = g a w') ->
  bind m f w = bind m g w.
Proof.
  intros H. unfold bind. destruct (m w) as [[t1 w1] a]. rewrite H. reflexivity.
Qed.

(** The world a turn leaves is the world its calls leave. *)
Lemma mountOne_world (E : Env) (store : Store E) (n : nat) (outputJSON : bool)
  (name : string) (l : Locals) (w : World E) :
  world_of (mountOne E store n outputJSON name l w)
  = match openBuilder E store name w with
    | (inr _, w1) => w1
    | (inl b, w1) => snd (Mount E b (BMountLabel E b) w1)
    end.
Proof.
  destruct (openBuilder E store name w) as [[b|err] w1] eqn:Ho.
  - destruct (Mount E b (BMountLabel E b) w1) as [[path|err] w2] eqn:Hm.
    + rewrite (mountOne_mounted E store n outputJSON name l w w1 w2 b path Ho Hm).
      destruct outputJSON; reflexivity.
    + rewrite (mountOne_unmounted E store n outputJSON name l w w1 w2 b err Ho Hm).
      reflexivity.
  - rewrite (mountOne_unresolved E store n outputJSON name l w w1 err Ho).
    reflexivity.
Qed.

(** X10: the loop over a request in two parts is the loop over the first part
    followed by the loop over the second, which starts in the world and
    with the results and the pending failure that the first part left;
    the failures and the successes of the request are those of the first
    part followed by those of the second in that world.  The first part
    weighs on the second through the world, the results and the pending
    failure alone. *)
Theorem mountTargets_app (E : Env) (store : Store E) (n : nat) (outputJSON : bool)
  (args1 args2 : list string) (l : Locals) (w : World E) :
  mountTargets E store n outputJSON (args1 ++ args2) l w
  = bind (mountTargets E store n outputJSON args1 l)
         (mountTargets E store n outputJSON args2) w
  /\ failures E store (args1 ++ args2) w
     = (failures E store args1 w
        ++ failures E store args2
             (world_of (mountTargets E store n outputJSON args1 l w)))%list
  /\ successes E store (args1 ++ args2) w
     = (successes E store args1 w
        ++ successes E store args2
             (world_of (mountTargets E store n outputJSON args1 l w)))%list.
Proof.
  split; [|split].
  - revert l w. induction args1 as [|name rest IH]; intros l w.
    + cbn [app mountTargets]. unfold bind, ret.
      destruct (mountTargets E store n outputJSON args2 l w) as [[t2 w2] l2].
      reflexivity.
    + cbn [app mountTargets]. rewrite bind_assoc.
      apply bind_ext. intros l' w'. apply IH.
  - revert l w. induction args1 as [|name rest IH]; intros l w; [reflexivity|].
    cbn [app failures]. rewrite mountTargets_step, world_of_triple, mountOne_world.
    destruct (openBuilder E store name w) as [[b|err] w1].
    + destruct (Mount E b (BMountLabel E b) w1) as [[path|err] w2]; cbn [snd];
        rewrite (IH (value_of (mountOne E store n outputJSON name l w)) w2);
        reflexivity.
    + rewrite (IH (value_of (mountOne E store n outputJSON name l w)) w1).
      reflexivity.
  - revert l w. induction args1 as [|name rest IH]; intros l w; [reflexivity|].
    cbn [app successes]. rewrite mountTargets_step, world_of_triple, mountOne_world.
    destruct (openBuilder E store name w) as [[b|err] w1].
    + destruct (Mount E b (BMountLabel E b) w1) as [[path|err] w2]; cbn [snd];
        rewrite (IH (value_of (mountOne E store n outputJSON name l w)) w2);
        reflexivity.
    + rewrite (IH (value_of (mountOne E store n outputJSON name l w)) w1).
      reflexivity.
Qed.

(** ** Where the error of the command comes from *)

Lemma last_Some_In (A : Type) (l : list A) (x : A) :
  last (map Some l) None = Some x -> In x l.
Proof.
  destruct l as [|y l]; [discriminate|].
  cbn [map]. rewrite last_cons_default.
  revert y. induction l as [|z l IH]; intros y H.
  - cbn in H. injection H as H. left. exact H.
  - cbn [map] in H. rewrite last_cons_default in H. right. exact (IH z H).
Qed.

(** A failure of the loop is the error of a resolution or of a mount of
    one of the arguments, wrapped as lines 86 and 94 wrap it. *)
Lemma failures_origin (E : Env) (store : Store E) (args : list string) :
  forall (w : World E) (f : error),
    In f (failures E store args w) ->
    (exists name cause wq wq',
        In name args
        /\ openBuilder E store name wq = (inr cause, wq')
        /\ f = readFailure E name cause)
    \/ (exists name b cause wq wq',
          In name args
          /\ Mount E b (BMountLabel E b) wq = (inr cause, wq')
          /\ f = mountFailure E name b cause).
Proof.
  induction args as [|name rest IH]; intros w f Hin; [contradiction|].
  assert (Hrest : forall w', In f (failures E store rest w') ->
            (exists name0 cause wq wq',
                In name0 (name :: rest)
                /\ openBuilder E store name0 wq = (inr cause, wq')
                /\ f = readFailure E name0 cause)
            \/ (exists name0 b cause wq wq',
                  In name0 (name :: rest)
                  /\ Mount E b (BMountLabel E b) wq = (inr cause, wq')
                  /\ f = mountFailure E name0 b cause)).
  { intros w' Hin'.
    destruct (IH w' f Hin') as [(n0 & c & wq & wq' & H1 & H2 & H3)
                               | (n0 & b & c & wq & wq' & H1 & H2 & H3)].
    - left. exists n0, c, wq, wq'. split; [right; exact H1|]. split; assumption.
    - right. exists n0, b, c, wq, wq'. split; [right; exact H1|]. split; assumption. }
  cbn [failures] in Hin.
  destruct (openBuilder E store name w) as [[b|err] w1] eqn:Ho.
  - destruct (Mount E b (BMountLabel E b) w1) as [[path|err] w2] eqn:Hm.
    + exact (Hrest w2 Hin).
    + destruct Hin as [Hf | Hin]; [|exact (Hrest w2 Hin)].
      right. exists name, b, err, w1, w2.
      split; [left; reflexivity|]. split; [exact Hm | symmetry; exact Hf].
  - destruct Hin as [Hf | Hin]; [|exact (Hrest w1 Hin)].
    left. exists name, err, w, w1.
    split; [left; reflexivity|]. split; [exact Ho | symmetry; exact Hf].
Qed.

(** The error that ends the listing loop is the error of a query, as it
    is. *)
Lemma listMounted_error (E : Env) (outputJSON : bool) (builders : list (Builder E)) :
  forall (l : Locals) (w : World E) (t : list (Event E)) (w' : World E) (e : error),
    listMounted E outputJSON builders l w = (t, w', inr e) ->
    exists b wq wq', In b builders /\ Mounted E b wq = (inr e, wq').
Proof.
  induction builders as [|b rest IH]; intros l w t w' e Hrun.
  - cbn in Hrun. discriminate Hrun.
  - rewrite listMounted_step in Hrun.
    destruct (Mounted E b w) as [[mounted|err] w1] eqn:Hq.
    + assert (Hrest : forall l1, value_of (listMounted E outputJSON rest l1 w1) = inr e ->
                exists b0 wq wq', In b0 (b :: rest) /\ Mounted E b0 wq = (inr e, wq')).
      { intros l1 Hv.
        destruct (IH l1 w1 _ _ e
                    (eq_trans (run_triple E _ (listMounted E outputJSON rest l1 w1))
                              (f_equal _ Hv))) as (b0 & wq & wq' & H1 & H2).
        exists b0, wq, wq'. split; [right; exact H1 | exact H2]. }
      destruct mounted; cbv zeta in Hrun; injection Hrun as _ _ Hv;
        exact (Hrest _ Hv).
    + injection Hrun as _ _ He. subst err.
      exists b, w, w1. split; [left; reflexivity | exact Hq].
Qed.

(** X11: every error the command returns is the error of one collaborator, as
    it is or wrapped once, or the error of the rootless guard: the
    argument check and the store as they are; a resolution or a mount of
    one of the targets, wrapped with the target; the enumeration,
    wrapped; a query of a builder as it is; the encoder as it is.  The
    command has no other error of its own. *)
Theorem where_errors_come_from (E : Env) (args : list string) (outputJSON : bool)
  (w : World E) (e : error) :
  value_of (mountCmd E args outputJSON w) = Some e ->
  VerifyFlagsArgsOrder E args = Some e
  \/ (exists w1, getStore E w = (inr e, w1))
  \/ (exists store, args <> [] /\ e = rootlessError (GraphDriverName E store))
  \/ (exists store name cause wq wq',
        In name args
        /\ openBuilder E store name wq = (inr cause, wq')
        /\ e = readFailure E name cause)
  \/ (exists name b cause wq wq',
        In name args
        /\ Mount E b (BMountLabel E b) wq = (inr cause, wq')
        /\ e = mountFailure E name b cause)
  \/ (exists store cause wq wq',
        args = []
        /\ openBuilders E store wq = (inr cause, wq')
        /\ e = Wrapf cause "error reading build containers")
  \/ (exists b wq wq', args = [] /\ Mounted E b wq = (inr e, wq'))
  \/ (exists v, outputJSON = true /\ MarshalIndent E v = inr e).
Proof.
  assert (Hfin : forall l w1 r,
            value_of (finish E outputJSON l w1) = r ->
            r = lastError l
            \/ (exists err, r = Some err /\ outputJSON = true
                            /\ MarshalIndent E (jsonMounts l) = inr err)).
  { intros l w1 r Hr. unfold finish in Hr. destruct outputJSON.
    - destruct (MarshalIndent E (jsonMounts l)) as [data|err] eqn:Hd.
      + left. symmetry. exact Hr.
      + right. exists err. split; [symmetry; exact Hr|]. split; reflexivity.
    - left. symmetry. exact Hr. }
  intros Hret.
  destruct (VerifyFlagsArgsOrder E args) as [err|] eqn:Hv.
  { rewrite (mountCmd_bad_args E args outputJSON w err Hv) in Hret.
    left. exact Hret. }
  destruct (getStore E w) as [[store|err] w0] eqn:Hs.
  2:{ rewrite (mountCmd_no_store E args outputJSON w w0 err Hv Hs) in Hret.
      injection Hret as He. subst err.
      right. left. exists w0. reflexivity. }
  rewrite (mountCmd_branch E args outputJSON w store w0 Hv Hs) in Hret.
  clear Hv Hs. destruct args as [|name rest].
  - cbn [length Nat.ltb Nat.leb] in Hret. unfold mountAll, bind, call in Hret.
    destruct (openBuilders E store w0) as [[builders|err] w1] eqn:Ho.
    + destruct (listMounted E outputJSON builders locals0 w1)
        as [[t1 w2] [l|err]] eqn:Hl.
      * destruct (finish E outputJSON l w2) as [[t2 w3] r] eqn:Hf.
        rewrite value_of_triple in Hret. subst r.
        destruct (Hfin l w2 (Some e)) as [Hlast | (err & He & Hj & Hd)].
        -- rewrite Hf. reflexivity.
        -- rewrite (listMounted_lastError E outputJSON builders locals0 w1 t1 w2 l Hl)
             in Hlast. discriminate Hlast.
        -- injection He as He. subst err.
           do 7 right. exists (jsonMounts l). split; assumption.
      * cbn in Hret. injection Hret as He. subst err.
        destruct (listMounted_error E outputJSON builders locals0 w1 t1 w2 e Hl)
          as (b & wq & wq' & _ & Hq).
        do 6 right. left. exists b, wq, wq'. split; [reflexivity | exact Hq].
    + cbn in Hret. injection Hret as He.
      do 5 right. left. exists store, err, w0, w1.
      split; [reflexivity|]. split; [exact Ho | symmetry; exact He].
  - change (0 <? length (name :: rest))%nat with true in Hret. cbv iota in Hret.
    unfold mountArgs in Hret. destruct (rootless E store w0).
    + cbn in Hret. injection Hret as He.
      right. right. left. exists store. split; [discriminate | symmetry; exact He].
    + unfold bind in Hret.
      pose proof (mountTargets_summary E store (length (name :: rest)) outputJSON
                    (name :: rest) locals0 w0) as (_ & _ & H3 & _).
      destruct (mountTargets E store (length (name :: rest)) outputJSON
                  (name :: rest) locals0 w0) as [[t1 w1] l].
      rewrite value_of_triple in H3.
      destruct (finish E outputJSON l w1) as [[t2 w2] r] eqn:Hf.
      rewrite value_of_triple in Hret. subst r.
      destruct (Hfin l w1 (Some e)) as [Hlast | (err & He & Hj & Hd)].
      * rewrite Hf. reflexivity.
      * rewrite H3 in Hlast. symmetry in Hlast. apply last_Some_In in Hlast.
        destruct (failures_origin E store (name :: rest) w0 e Hlast)
          as [(n0 & c & wq & wq' & H1 & H2 & H4)
             | (n0 & b & c & wq & wq' & H1 & H2 & H4)].
        -- do 3 right. left. exists store, n0, c, wq, wq'. repeat split; assumption.
        -- do 4 right. left. exists n0, b, c, wq, wq'. repeat split; assumption.
      * injection He as He. subst err.
        do 7 right. exists (jsonMounts l). split; assumption.
Qed.

(** The error of the batch A, B, C is the error of the mount of C,
    wrapped. *)
Lemma where_errors_come_from_witness :
  exists name b cause wq wq',
    In name ["A"; "B"; "C"]
    /\ Mount rootEnv b (BMountLabel rootEnv b) wq = (inr cause, wq')
    /\ mountFailure rootEnv "C" (tb "C" MountFails) (Errorf "mount failed")
       = mountFailure rootEnv name b cause.
Proof.
  destruct (where_errors_come_from rootEnv ["A"; "B"; "C"] false []
              (mountFailure rootEnv "C" (tb "C" MountFails) (Errorf "mount failed"))
              eq_refl)
    as [H | [(w1 & H) | [(s & _ & H) | [(s & n & c & wq & wq' & _ & _ & H)
       | [H | [(s & c & wq & wq' & H & _) | [(b & wq & wq' & H & _) | (v & H & _)]]]]]]].
  - discriminate H.
  - discriminate H.
  - discriminate H.
  - discriminate H.
  - exact H.
  - discriminate H.
  - discriminate H.
  - discriminate H.
Defined.

(** ** The listing asks every builder *)



